(** * Zynthian UI: the zynmixer wrapper, the setBfree engine table and parser,
    and the page navigation of the control screen.

    Shallow embedding of
    - [src/zyngine/zynthian_engine_audio_mixer.py]  (class [zynmixer])
    - [src/zyngine/zynthian_engine_setbfree.py]     ([map_list], [load_pgm_list])
    - [src/zyngui/zynthian_gui_control.py]          ([previous_page], [next_page],
      the XY-select mode and the loop of [fill_list]) *)

From Stdlib Require Import ZArith QArith_base Ascii Lia.
From stdpp Require Import base list gmap strings pretty.

Open Scope string_scope.

(* ------------------------------------------------------------------ *)
(** ** Python values and exceptions *)

(** The Python values the mixer stores and passes around: controller
    values are floats (level, balance), ints or bools (toggles). *)
Inductive pyval :=
| PyNone
| PyBool (b : bool)
| PyInt (z : Z)
| PyFloat (q : Q).

(** Python's [==] on numbers: [True == 1], [0 == 0.0]. *)
Definition py_num (v : pyval) : option Q :=
  match v with
  | PyNone => None
  | PyBool b => Some (if b then 1 else 0)%Q
  | PyInt z => Some (inject_Z z)
  | PyFloat q => Some q
  end.

Definition py_eqb (a b : pyval) : bool :=
  match py_num a, py_num b with
  | Some x, Some y => Qeq_bool x y
  | None, None => true
  | _, _ => false
  end.

(** Truthiness ([if v:]). *)
Definition py_truthy (v : pyval) : bool :=
  match v with
  | PyNone => false
  | PyBool b => b
  | PyInt z => negb (Z.eqb z 0)
  | PyFloat q => negb (Qeq_bool q 0)
  end.

Inductive exc :=
| TypeError
| KeyError
| IndexError
| AttributeError
| RuntimeError
| OverflowError
| ArgumentError.    (* ctypes.ArgumentError *)

(* ------------------------------------------------------------------ *)
(** ** setBfree: the MIDI CC table *)

(** A value of the table: an int or a string. *)
Inductive cfgval :=
| CVInt (z : Z)
| CVStr (s : string).

(** One controller entry [(name, cc, default, range)]. *)
Record ctrl_entry := mkEntry {
  ce_name : string;
  ce_cc : Z;
  ce_default : cfgval;
  ce_range : cfgval
}.

(** One screen [([entries], 0, title)]. *)
Definition screen : Type := list ctrl_entry * Z * string.

Definition drawbar_range : cfgval := CVStr "0|1|2|3|4|5|6|7|8".

Definition map_list : list screen := [
  ([ mkEntry "volume" 1 (CVInt 96) (CVInt 127);
     mkEntry "percussion on/off" 80 (CVStr "off") (CVStr "off|on");
     mkEntry "rotary speed" 91 (CVStr "off") (CVStr "off|chr|trm|chr");
     mkEntry "vibrato on/off" 92 (CVStr "off") (CVStr "off|on") ], 0%Z, "main");
  ([ mkEntry "16" 70 (CVStr "8") drawbar_range;
     mkEntry "5 1/3" 71 (CVStr "8") drawbar_range;
     mkEntry "8" 72 (CVStr "8") drawbar_range;
     mkEntry "4" 73 (CVStr "8") drawbar_range ], 0%Z, "drawbars low");
  ([ mkEntry "2 2/3" 74 (CVStr "8") drawbar_range;
     mkEntry "2" 75 (CVStr "8") drawbar_range;
     mkEntry "1 3/5" 76 (CVStr "8") drawbar_range;
     mkEntry "1 1/3" 77 (CVStr "8") drawbar_range ], 0%Z, "drawbars hi");
  ([ mkEntry "drawbar 1" 78 (CVStr "8") drawbar_range;
     mkEntry "vibrato selector" 83 (CVStr "c3") (CVStr "v1|v2|v3|c1|c2|c3");
     mkEntry "percussion decay" 81 (CVStr "slow") (CVStr "slow|fast");
     mkEntry "percussion harmonic" 82 (CVStr "3rd") (CVStr "2nd|3rd") ], 0%Z,
     "percussion & vibrato");
  ([ mkEntry "overdrive on/off" 23 (CVStr "off") (CVStr "off|on");
     mkEntry "overdrive character" 93 (CVInt 64) (CVInt 127);
     mkEntry "overdrive inputgain" 21 (CVInt 64) (CVInt 127);
     mkEntry "overdrive outputgain" 22 (CVInt 64) (CVInt 127) ], 0%Z, "overdrive")
].

(** [default_ctrl_config = map_list[0][0]] *)
Definition default_ctrl_config : list ctrl_entry :=
  match map_list with
  | (l, _, _) :: _ => l
  | [] => []
  end.

Definition screen_ccs (s : screen) : list Z :=
  match s with (l, _, _) => map ce_cc l end.

Definition all_ccs : list Z := concat (map screen_ccs map_list).

(* ------------------------------------------------------------------ *)
(** ** setBfree: [load_pgm_list]

    The file is read in text mode ([open(fpath)], [f.readlines()]); the
    lines are matched against
    [^([\d]+)[\s]*\{[\s]*name\=Q([^Q]+)Q] with [re.match], where Q
    stands for an escaped double quote.
    Characters are modelled as ASCII; [\d] is then [0-9] and [\s] is
    what Python's [str.isspace] accepts: tab, LF, VT, FF, CR, the four
    separators 0x1c..0x1f and space. *)

Definition dq : ascii := "034"%char.
Definition nl : ascii := "010"%char.
Definition cr : ascii := "013"%char.

Definition is_digit (c : ascii) : bool :=
  let n := nat_of_ascii c in (48 <=? n)%nat && (n <=? 57)%nat.

Definition is_space (c : ascii) : bool :=
  let n := nat_of_ascii c in
  ((9 <=? n)%nat && (n <=? 13)%nat) || ((28 <=? n)%nat && (n <=? 32)%nat).

Definition is_not_dq (c : ascii) : bool := negb (Ascii.eqb c dq).

(** Universal newlines of text mode: ["\r\n"] and ["\r"] read as ["\n"]. *)
Fixpoint translate_newlines (s : string) : string :=
  match s with
  | EmptyString => EmptyString
  | String c r =>
      if Ascii.eqb c cr then
        match r with
        | String c2 r2 =>
            if Ascii.eqb c2 nl then String nl (translate_newlines r2)
            else String nl (translate_newlines r)
        | EmptyString => String nl EmptyString
        end
      else String c (translate_newlines r)
  end.

(** [readlines] keeps the ["\n"] that ends each line; the last line may
    lack it. [readlines_go s] is the first (partial) line of [s] and the
    lines after it. *)
Fixpoint readlines_go (s : string) : string * list string :=
  match s with
  | EmptyString => (EmptyString, [])
  | String c r =>
      let '(cur, ls) := readlines_go r in
      if Ascii.eqb c nl then
        (String nl EmptyString, match r with EmptyString => ls | _ => cur :: ls end)
      else (String c cur, ls)
  end.

Definition readlines (content : string) : list string :=
  let '(cur, ls) := readlines_go (translate_newlines content) in
  match cur with EmptyString => ls | _ => cur :: ls end.

(** Greedy repetition of a character class: the longest prefix of [s]
    whose characters satisfy [p], and the rest. *)
Fixpoint span (p : ascii -> bool) (s : string) : string * string :=
  match s with
  | EmptyString => (EmptyString, EmptyString)
  | String c r =>
      if p c then let '(a, b) := span p r in (String c a, b)
      else (EmptyString, s)
  end.

Fixpoint strip_prefix (p s : string) : option string :=
  match p with
  | EmptyString => Some s
  | String c p' =>
      match s with
      | String c' s' => if Ascii.eqb c c' then strip_prefix p' s' else None
      | EmptyString => None
      end
  end.

(** The literal [name\=Q], Q the double quote [dq]. *)
Definition name_eq : string := "name=" +:+ String dq EmptyString.

(** [ptrn.match(line)]: [Some (group(1), group(2))] or [None]. The
    classes [\d], [\s]-then-[{] and [^Q]-then-Q are disjoint from what
    follows them, so greedy matching never backtracks. *)
Definition ptrn_match (line : string) : option (string * string) :=
  let '(g1, r1) := span is_digit line in
  if String.eqb g1 EmptyString then None else
  match snd (span is_space r1) with
  | String c r2 =>
      if Ascii.eqb c "{"%char then
        match strip_prefix name_eq (snd (span is_space r2)) with
        | Some r3 =>
            let '(g2, r4) := span is_not_dq r3 in
            if String.eqb g2 EmptyString then None else
            match r4 with
            | String c' _ => if Ascii.eqb c' dq then Some (g1, g2) else None
            | EmptyString => None
            end
        | None => None
        end
      else None
  | EmptyString => None
  end.

(** [int(s)] on a string of decimal digits. *)
Fixpoint digits_value (s : string) (acc : Z) : Z :=
  match s with
  | EmptyString => acc
  | String c r => digits_value r (acc * 10 + (Z.of_nat (nat_of_ascii c) - 48))%Z
  end.

Definition py_int (s : string) : Z := digits_value s 0.

Definition pgm : Type := Z * list Z * string.

(** The [for line in lines] loop of [load_pgm_list], with [pgm_list] and
    [i] as its state. *)
Fixpoint load_pgm_loop (lines : list string) (pgm_list : list pgm) (i : Z)
  : list pgm :=
  match lines with
  | [] => pgm_list
  | line :: rest =>
      match ptrn_match line with
      | Some (g1, g2) =>
          let prg := (py_int g1 - 1)%Z in
          let title := g2 in
          if (0 <=? prg)%Z
          then load_pgm_loop rest (pgm_list ++ [(i, [0; 0; prg]%Z, title)]) (i + 1)
          else load_pgm_loop rest pgm_list i
      | None => load_pgm_loop rest pgm_list i
      end
  end.

Definition load_pgm_list (content : string) : list pgm :=
  load_pgm_loop (readlines content) [] 0.







(* ------------------------------------------------------------------ *)
(** ** Control screen: page navigation

    [previous_page] and [next_page] compute an index and hand it to
    [self.select]; the functions below return that index. *)

Section Pages.
Context {A : Type}.

Definition previous_page (index : Z) (list_data : list A) (wrap : bool) : Z :=
  let i := (index - 1)%Z in
  if (i <? 0)%Z then 0%Z else i.

Definition next_page (index : Z) (list_data : list A) (wrap : bool) : Z :=
  let i := (index + 1)%Z in
  if (Z.of_nat (length list_data) <=? i)%Z then
    (if wrap then 0%Z else (Z.of_nat (length list_data) - 1)%Z)
  else i.

End Pages.

(* ------------------------------------------------------------------ *)
(** ** zynmixer: data model *)

(** The six controllers of a strip, in the order of the strip dict. *)
Inductive symbol := Level | Balance | Mute | Solo | Mono | Phase.

Global Instance symbol_eq_dec : EqDecision symbol.
Proof. solve_decision. Defined.

Definition symbols : list symbol := [Level; Balance; Mute; Solo; Mono; Phase].

Definition symbol_name (y : symbol) : string :=
  match y with
  | Level => "level" | Balance => "balance" | Mute => "mute"
  | Solo => "solo" | Mono => "mono" | Phase => "phase"
  end.

(** A controller object as the mixer uses it: its cached value and the
    default it is reset to. *)
Record zctrl := mkZctrl { zc_value : pyval; zc_default : pyval }.

(** [strip_dict] *)
Record strip := mkStrip {
  s_level : zctrl; s_balance : zctrl; s_mute : zctrl;
  s_solo : zctrl; s_mono : zctrl; s_phase : zctrl
}.

Definition strip_get (s : strip) (y : symbol) : zctrl :=
  match y with
  | Level => s_level s | Balance => s_balance s | Mute => s_mute s
  | Solo => s_solo s | Mono => s_mono s | Phase => s_phase s
  end.

Definition strip_set (s : strip) (y : symbol) (z : zctrl) : strip :=
  match y with
  | Level => mkStrip z (s_balance s) (s_mute s) (s_solo s) (s_mono s) (s_phase s)
  | Balance => mkStrip (s_level s) z (s_mute s) (s_solo s) (s_mono s) (s_phase s)
  | Mute => mkStrip (s_level s) (s_balance s) z (s_solo s) (s_mono s) (s_phase s)
  | Solo => mkStrip (s_level s) (s_balance s) (s_mute s) z (s_mono s) (s_phase s)
  | Mono => mkStrip (s_level s) (s_balance s) (s_mute s) (s_solo s) z (s_phase s)
  | Phase => mkStrip (s_level s) (s_balance s) (s_mute s) (s_solo s) (s_mono s) z
  end.

(** Identity of a controller object: one of the mixer's own strip
    controllers, or a controller of another engine. *)
Inductive zref :=
| ZStrip (chan : nat) (sym : symbol)
| ZForeign (id : nat).

Global Instance zref_eq_dec : EqDecision zref.
Proof. solve_decision. Defined.

(** One entry of [learned_cc]: a Python dict from CC number to controller,
    as an association list in insertion order with distinct keys. *)
Definition ccdict : Type := list (nat * zref).

Fixpoint dict_get (d : ccdict) (k : nat) : option zref :=
  match d with
  | [] => None
  | (k', z) :: d' => if Nat.eqb k k' then Some z else dict_get d' k
  end.

(** [d[k] = z]: replace in place, or append a new key. *)
Fixpoint dict_set (d : ccdict) (k : nat) (z : zref) : ccdict :=
  match d with
  | [] => [(k, z)]
  | (k', z') :: d' => if Nat.eqb k k' then (k', z) :: d' else (k', z') :: dict_set d' k z
  end.

Fixpoint dict_pop (d : ccdict) (k : nat) : ccdict :=
  match d with
  | [] => []
  | (k', z') :: d' => if Nat.eqb k k' then d' else (k', z') :: dict_pop d' k
  end.

(** An argument of a call into the native library (ctypes marshalling):
    a channel or leg number, [None], a Python value passed as it is, or
    [ctypes.c_float(v)]. *)
Inductive carg :=
| CInt (n : nat)
| CNone
| CPy (v : pyval)
| CFloat (v : pyval).

(** ctypes converts an int argument with [PyLong_AsUnsignedLong], then
    [PyLong_AsLong]; on the 64-bit target a C long has 64 bits. *)
Definition c_long_fits (z : Z) : bool := (- 2 ^ 63 <=? z)%Z && (z <? 2 ^ 64)%Z.

(** [float(z)] of an int overflows from the first int that rounds to
    2^1024 (halfway above the largest double, ties to even). *)
Definition float_fits (z : Z) : bool := (Z.abs z <? 2 ^ 1024 - 2 ^ 970)%Z.

(** [ctypes.c_float(v)], evaluated with the arguments of the call. *)
Definition c_float_error (v : pyval) : option exc :=
  match v with
  | PyNone => Some TypeError            (* must be real number, not NoneType *)
  | PyInt z => if float_fits z then None else Some OverflowError
  | PyBool _ | PyFloat _ => None
  end.

(** The conversion of a plain Python argument by the foreign call (no
    [argtypes] are set): [None] passes as NULL, a bool or an int as a C
    int; a float is refused. *)
Definition conv_error (v : pyval) : option exc :=
  match v with
  | PyNone | PyBool _ => None
  | PyInt z => if c_long_fits z then None else Some ArgumentError
  | PyFloat _ => Some ArgumentError     (* Don't know how to convert parameter *)
  end.

Definition carg_eval_error (a : carg) : option exc :=
  match a with CFloat v => c_float_error v | _ => None end.

(** Channel and leg numbers are Python ints passed as they are; the model
    takes them within the range of a C long. *)
Definition carg_conv_error (a : carg) : option exc :=
  match a with CPy v => conv_error v | _ => None end.

(** The first exception the call raises before reaching the library:
    the argument expressions are evaluated left to right, then converted
    left to right. *)
Definition marshal_error (args : list carg) : option exc :=
  match omap carg_eval_error args with
  | e :: _ => Some e
  | [] => match omap carg_conv_error args with
          | e :: _ => Some e
          | [] => None
          end
  end.

(** What the mixer does to the outside world. *)
Inductive event :=
| ENative (fn : string) (args : list carg)         (* call into libzynmixer *)
| EUpdate (chan : option nat) (sym : symbol) (v : pyval)  (* processor_cb *)
| ECtrlMCC (z : zref) (val : nat)                   (* zctrl.midi_control_change *)
| ELearnCb                                          (* midi_learn_cb() *)
| EMidiLearn (z : zref) (chan cc : pyval)           (* set_midi_learn *)
| EWarning.                                         (* logging.warning *)

Record mixer := mkMixer {
  m_lib : bool;                   (* lib_zynmixer is not None *)
  m_max : nat;                    (* MAX_NUM_CHANNELS *)
  m_zctrls : list strip;          (* zctrls *)
  m_learned_cc : list ccdict;     (* learned_cc *)
  m_learn_zctrl : option zref;    (* midi_learn_zctrl *)
  m_learn_cb : bool;              (* midi_learn_cb is set *)
  m_processor_cb : bool;          (* processor_cb is set *)
  m_log : list event
}.

Definition set_lib (b : bool) (s : mixer) : mixer :=
  mkMixer b (m_max s) (m_zctrls s) (m_learned_cc s) (m_learn_zctrl s)
          (m_learn_cb s) (m_processor_cb s) (m_log s).
Definition set_max (n : nat) (s : mixer) : mixer :=
  mkMixer (m_lib s) n (m_zctrls s) (m_learned_cc s) (m_learn_zctrl s)
          (m_learn_cb s) (m_processor_cb s) (m_log s).
Definition set_zctrls (l : list strip) (s : mixer) : mixer :=
  mkMixer (m_lib s) (m_max s) l (m_learned_cc s) (m_learn_zctrl s)
          (m_learn_cb s) (m_processor_cb s) (m_log s).
Definition set_learned_cc (l : list ccdict) (s : mixer) : mixer :=
  mkMixer (m_lib s) (m_max s) (m_zctrls s) l (m_learn_zctrl s)
          (m_learn_cb s) (m_processor_cb s) (m_log s).
Definition set_learn_zctrl (z : option zref) (s : mixer) : mixer :=
  mkMixer (m_lib s) (m_max s) (m_zctrls s) (m_learned_cc s) z
          (m_learn_cb s) (m_processor_cb s) (m_log s).
Definition set_learn_cb (b : bool) (s : mixer) : mixer :=
  mkMixer (m_lib s) (m_max s) (m_zctrls s) (m_learned_cc s) (m_learn_zctrl s)
          b (m_processor_cb s) (m_log s).
Definition add_log (l : list event) (s : mixer) : mixer :=
  mkMixer (m_lib s) (m_max s) (m_zctrls s) (m_learned_cc s) (m_learn_zctrl s)
          (m_learn_cb s) (m_processor_cb s) (m_log s ++ l).

(** [self.zctrls[c][y]] *)
Definition cache_get (s : mixer) (c : nat) (y : symbol) : option zctrl :=
  (λ st, strip_get st y) <$> m_zctrls s !! c.

Definition cache_value (s : mixer) (c : nat) (y : symbol) : option pyval :=
  zc_value <$> cache_get s c y.

(** [self.learned_cc[ch][cc]] when both lookups succeed. *)
Definition bound_at (s : mixer) (ch cc : nat) : option zref :=
  m_learned_cc s !! ch ≫= λ d, dict_get d cc.

(* ------------------------------------------------------------------ *)
(** ** The state and exception monad of the wrapper

    A method runs on the mixer object and either returns or raises; the
    mutations made before an exception stay, as in Python. *)

Definition M (T : Type) : Type := mixer -> (exc + T) * mixer.

Definition ret {T} (a : T) : M T := λ s, (inr a, s).
Definition raise {T} (e : exc) : M T := λ s, (inl e, s).
Definition bind {T U} (m : M T) (k : T -> M U) : M U :=
  λ s, match m s with
       | (inl e, s') => (inl e, s')
       | (inr a, s') => k a s'
       end.
Definition gets {T} (f : mixer -> T) : M T := λ s, (inr (f s), s).
Definition modify (f : mixer -> mixer) : M unit := λ s, (inr tt, f s).

Notation "x <- m ;; k" := (bind m (λ x, k))
  (at level 96, m at next level, right associativity).
Notation "m ;;; k" := (bind m (λ _ : unit, k))
  (at level 96, right associativity).

(** [try: m except: h] *)
Definition try_except (m : M unit) (h : M unit) : M unit :=
  λ s, match m s with
       | (inl _, s') => h s'
       | r => r
       end.

Definition try_pass (m : M unit) : M unit := try_except m (ret tt).

Fixpoint for_ {T} (l : list T) (body : T -> M unit) : M unit :=
  match l with
  | [] => ret tt
  | x :: l' => body x ;;; for_ l' body
  end.

Definition when (b : bool) (m : M unit) : M unit := if b then m else ret tt.

(** Unwrap a lookup or raise. *)
Definition lift_opt {T} (e : exc) (o : option T) : M T :=
  match o with Some a => ret a | None => raise e end.

Global Instance Q_eq_dec : EqDecision Q.
Proof. solve_decision. Defined.

Global Instance pyval_eq_dec : EqDecision pyval.
Proof. solve_decision. Defined.

(* ------------------------------------------------------------------ *)
(** ** zynmixer: the methods *)

Section Zynmixer.

(** The native library [libzynmixer.so] is built outside this repository.
    [lib_max] is what [getMaxChannels()] returns; [lib_get h fn args] is
    what the getter [fn] returns after the calls [h] the wrapper made. *)
Variable lib_max : nat.
Variable lib_get : list event -> string -> list carg -> pyval.

(** [if self.lib_zynmixer: self.lib_zynmixer.fn(args)]: the arguments
    are evaluated and converted first, and a conversion that fails raises
    before the library is called. *)
Definition lib_call (fn : string) (args : list carg) : M unit :=
  lib <- gets m_lib ;;
  when lib (match marshal_error args with
            | Some e => raise e
            | None => modify (add_log [ENative fn args])
            end).

(** [self.lib_zynmixer.fn(args)] used for its result; on [None] the
    attribute lookup raises before the arguments are looked at. *)
Definition lib_query (fn : string) (args : list carg) : M pyval :=
  lib <- gets m_lib ;;
  if lib then
    match marshal_error args with
    | Some e => raise e
    | None => gets (λ s, lib_get (m_log s) fn args)
    end
  else raise AttributeError.

Definition get_max_channels : M nat :=
  lib <- gets m_lib ;;
  ret (if lib then lib_max else 0).

Definition get_level (channel : nat) : M pyval :=
  lib <- gets m_lib ;;
  if lib then lib_query "getLevel" [CInt channel] else ret (PyInt 0).

Definition get_balance (channel : nat) : M pyval :=
  lib <- gets m_lib ;;
  if lib then lib_query "getBalance" [CInt channel] else ret (PyInt 0).

Definition get_mute (channel : nat) : M pyval :=
  lib <- gets m_lib ;;
  if lib then lib_query "getMute" [CInt channel] else ret (PyBool true).

Definition get_phase (channel : nat) : M pyval :=
  lib <- gets m_lib ;;
  if lib then lib_query "getPhase" [CInt channel] else ret (PyBool true).

Definition get_solo (channel : nat) : M pyval :=
  lib <- gets m_lib ;;
  if lib then (v <- lib_query "getSolo" [CInt channel] ;; ret (PyBool (py_eqb v (PyInt 1))))
  else ret (PyBool true).

Definition get_mono (channel : nat) : M pyval :=
  lib <- gets m_lib ;;
  if lib then (v <- lib_query "getMono" [CInt channel] ;; ret (PyBool (py_eqb v (PyInt 1))))
  else ret (PyBool true).

Definition get_dpm (channel leg : nat) : M pyval :=
  lib <- gets m_lib ;;
  if lib then lib_query "getDpm" [CInt channel; CInt leg] else ret (PyFloat (-200)).

Definition get_dpm_hold (channel leg : nat) : M pyval :=
  lib <- gets m_lib ;;
  if lib then lib_query "getDpmHold" [CInt channel; CInt leg] else ret (PyFloat (-200)).

(** [self.send_update(chan, ctrl, value)] *)
Definition send_update (chan : option nat) (y : symbol) (v : pyval) : M unit :=
  pcb <- gets m_processor_cb ;;
  when pcb (modify (add_log [EUpdate chan y v])).

(** [if channel >= self.MAX_NUM_CHANNELS: channel = self.MAX_NUM_CHANNELS] *)
Definition clamp (channel : nat) : M nat :=
  mx <- gets m_max ;;
  ret (if Nat.leb mx channel then mx else channel).

(** Modelled from the spec: [zynthian_controller] (not in src), which
    caches the last-known value; [set_value(v, False)] records [v] in the
    controller [self.zctrls[c][y]]. The list index raises IndexError out
    of range. *)
Definition zctrl_set_value (c : nat) (y : symbol) (v : pyval) : M unit :=
  λ s, match m_zctrls s !! c with
       | Some st =>
           (inr tt, set_zctrls (<[c := strip_set st y (mkZctrl v (zc_default (strip_get st y)))]>
                                  (m_zctrls s)) s)
       | None => (inl IndexError, s)
       end.

(** Modelled from the spec: [zynthian_controller.reset_value()] puts the
    controller back to its default value. *)
Definition zctrl_reset_value (c : nat) (y : symbol) : M unit :=
  λ s, match m_zctrls s !! c with
       | Some st =>
           let z := strip_get st y in
           (inr tt, set_zctrls (<[c := strip_set st y (mkZctrl (zc_default z) (zc_default z))]>
                                  (m_zctrls s)) s)
       | None => (inl IndexError, s)
       end.

Definition set_level (channel : nat) (level : pyval) (update : bool) : M unit :=
  channel <- clamp channel ;;
  lib_call "setLevel" [CInt channel; CFloat level] ;;;
  when update (zctrl_set_value channel Level level) ;;;
  send_update (Some channel) Level level.

Definition set_balance (channel : nat) (balance : pyval) (update : bool) : M unit :=
  channel <- clamp channel ;;
  lib_call "setBalance" [CInt channel; CFloat balance] ;;;
  when update (zctrl_set_value channel Balance balance) ;;;
  send_update (Some channel) Balance balance.

(** [set_mute] alone accepts [channel = None] (the default of [update] is
    [False] here, [True] in the other setters). *)
Definition set_mute (channel : option nat) (mute : pyval) (update : bool) : M unit :=
  channel <- (match channel with
              | Some c => c' <- clamp c ;; ret (Some c')
              | None => ret None
              end) ;;
  lib_call "setMute" [match channel with Some c => CInt c | None => CNone end; CPy mute] ;;;
  when update (match channel with
               | Some c => zctrl_set_value c Mute mute
               | None => raise TypeError
               end) ;;;
  send_update channel Mute mute.

Definition set_phase (channel : nat) (phase : pyval) (update : bool) : M unit :=
  channel <- clamp channel ;;
  lib_call "setPhase" [CInt channel; CPy phase] ;;;
  when update (zctrl_set_value channel Phase phase) ;;;
  send_update (Some channel) Phase phase.

Definition set_solo (channel : nat) (solo : pyval) (update : bool) : M unit :=
  channel <- clamp channel ;;
  lib_call "setSolo" [CInt channel; CPy solo] ;;;
  when update (zctrl_set_value channel Solo solo) ;;;
  send_update (Some channel) Solo solo.

Definition set_mono (channel : nat) (mono : pyval) (update : bool) : M unit :=
  channel <- clamp channel ;;
  lib_call "setMono" [CInt channel; CPy mono] ;;;
  when update (zctrl_set_value channel Mono mono) ;;;
  send_update (Some channel) Mono mono.

Definition toggle_mute (channel : nat) : M unit :=
  channel <- clamp channel ;;
  lib_call "toggleMute" [CInt channel].

Definition toggle_phase (channel : nat) (update : bool) : M unit :=
  channel <- clamp channel ;;
  lib_call "togglePhase" [CInt channel] ;;;
  when update (v <- lib_query "getPhase" [CInt channel] ;;
               zctrl_set_value channel Phase v).

(** With [update], [self.lib_zynmixer.get_solo(channel)] names a symbol
    the library does not export (nor has [None]): AttributeError. *)
Definition toggle_solo (channel : nat) (update : bool) : M unit :=
  channel <- clamp channel ;;
  lib <- gets m_lib ;;
  when lib (v <- get_solo channel ;;
            if py_truthy v then set_solo channel (PyBool false) true
            else set_solo channel (PyBool true) true) ;;;
  when update (raise AttributeError).

Definition toggle_mono (channel : nat) (update : bool) : M unit :=
  channel <- clamp channel ;;
  lib <- gets m_lib ;;
  when lib (v <- get_mono channel ;;
            if py_truthy v then set_mono channel (PyBool false) true
            else set_mono channel (PyBool true) true) ;;;
  when update (v <- lib_query "getMono" [CInt channel] ;;
               zctrl_set_value channel Mono v).

(** [reset(channel)] for an [int] channel. *)
Definition reset (channel : nat) : M unit :=
  channel <- clamp channel ;;
  for_ [Level; Balance; Mute; Mono; Solo; Phase] (zctrl_reset_value channel).

(** [destroy()]: the module [ctypes] has no [dlclose] (only [_ctypes]
    has), so with the library loaded the attribute lookup
    [ctypes.dlclose] raises AttributeError right after [end()], and
    [self.lib_zynmixer = None] is not reached. *)
Definition destroy : M unit :=
  lib <- gets m_lib ;;
  if lib then (lib_call "end" [] ;;; raise AttributeError)
  else modify (set_lib false).

(** [getattr(self, 'set_' + symbol)] *)
Definition setter (y : symbol) (channel : nat) (v : pyval) (update : bool) : M unit :=
  match y with
  | Level => set_level channel v update
  | Balance => set_balance channel v update
  | Mute => set_mute (Some channel) v update
  | Solo => set_solo channel v update
  | Mono => set_mono channel v update
  | Phase => set_phase channel v update
  end.

(** [send_controller_value(zctrl)] for the strip controller [(c, y)]:
    its [midi_chan] is [c], its [symbol] is [y]. *)
Definition send_controller_value (c : nat) (y : symbol) : M unit :=
  try_except
    (v <- (λ s, match cache_value s c y with
                | Some v => (inr v, s)
                | None => (inl IndexError, s)
                end) ;;
     setter y c v false)
    (modify (add_log [EWarning])).

(** Modelled from the spec: [zctrl.set_value(v, True)] records [v] and
    sends it through the engine's [send_controller_value]. *)
Definition zctrl_set_value_send (c : nat) (y : symbol) (v : pyval) : M unit :=
  zctrl_set_value c y v ;;;
  send_controller_value c y.

(** *** Snapshots *)

(** ['{:02d}'.format(n)] *)
Definition pad2 (n : nat) : string :=
  if Nat.ltb n 10 then "0" +:+ pretty n else pretty n.

(** The snapshot key of strip [chan] when [get_max_channels()] is [mx]. *)
Definition chan_key (mx chan : nat) : string :=
  if Nat.ltb chan mx then "chan_" +:+ pad2 chan else "main".

Definition ctrl_state : Type := gmap string pyval.
Definition snapshot : Type := gmap string (gmap string ctrl_state).

(** Modelled from the spec: [zynthian_controller.get_state(full)] reports
    the cached value, when [full] or when it differs from the default. *)
Definition zctrl_get_state (full : bool) (z : zctrl) : ctrl_state :=
  if full || negb (py_eqb (zc_value z) (zc_default z))
  then {[ "value" := zc_value z ]} else ∅.

(** [for symbol in self.zctrls[chan]: ... if ctrl_state: chan_state[..] = ..] *)
Definition strip_state (full : bool) (st : strip) : gmap string ctrl_state :=
  foldl (λ acc y,
           let cs := zctrl_get_state full (strip_get st y) in
           if decide (cs = ∅) then acc else <[symbol_name y := cs]> acc)
        ∅ symbols.

Fixpoint get_state_loop (full : bool) (mx : nat) (chans : list nat) (state : snapshot)
  : M snapshot :=
  match chans with
  | [] => ret state
  | chan :: rest =>
      st <- (λ s, match m_zctrls s !! chan with
                  | Some st => (inr st, s)
                  | None => (inl IndexError, s)
                  end) ;;
      let chan_state := strip_state full st in
      let state' := if decide (chan_state = ∅) then state
                    else <[chan_key mx chan := chan_state]> state in
      get_state_loop full mx rest state'
  end.

Definition get_state (full : bool) : M snapshot :=
  mx <- get_max_channels ;;
  get_state_loop full mx (seq 0 (mx + 1)) ∅.

(** Modelled from the spec: [set_midi_learn] (not defined in this class
    nor in src) binds the controller in the MIDI-learn subsystem. *)
Definition set_midi_learn (z : zref) (chan cc : pyval) : M unit :=
  modify (add_log [EMidiLearn z chan cc]).

(** The body of the [try] for the controller [(chan, y)]. *)
Definition set_state_ctrl (state : snapshot) (key : string) (chan : nat) (y : symbol)
  : M unit :=
  cs <- lift_opt KeyError (state !! key ≫= λ d, d !! symbol_name y) ;;
  (match cs !! "value" with
   | Some v => zctrl_set_value_send chan y v
   | None => ret tt
   end) ;;;
  (match cs !! "midi_learn_chan", cs !! "midi_learn_cc" with
   | Some lc, Some lcc => set_midi_learn (ZStrip chan y) lc lcc
   | _, _ => ret tt
   end).

Definition set_state (state : snapshot) (full : bool) : M unit :=
  n <- gets (λ s, length (m_zctrls s)) ;;
  for_ (seq 0 n) (λ chan,
    mx <- get_max_channels ;;
    let key := chan_key mx chan in
    for_ symbols (λ y,
      try_except (set_state_ctrl state key chan y)
                 (when full (zctrl_reset_value chan y)))).

(** *** MIDI learn *)

(** [self.learned_cc[ch]] for an int index. *)
Definition learned_cc_get (ch : nat) : M ccdict :=
  l <- gets m_learned_cc ;;
  lift_opt IndexError (l !! ch).

Definition enable_midi_learn (z : zref) : M unit :=
  modify (set_learn_zctrl (Some z)).

Definition disable_midi_learn : M unit :=
  modify (set_learn_zctrl None) ;;;
  cb <- gets m_learn_cb ;;
  when cb (modify (add_log [ELearnCb])).

(** [self.learned_cc[ch][ccnum].midi_control_change(val)] *)
Definition dispatch_cc (ch ccnum val : nat) : M unit :=
  d <- learned_cc_get ch ;;
  z <- lift_opt KeyError (dict_get d ccnum) ;;
  modify (add_log [ECtrlMCC z val]).

(** [midi_control_change]; [single] is the global
    [zynthian_gui_config.midi_single_active_channel]. *)
Definition midi_control_change (single : bool) (chan ccnum val : nat) : M unit :=
  lz <- gets m_learn_zctrl ;;
  match lz with
  | Some z =>
      d <- learned_cc_get chan ;;
      modify (λ s, set_learned_cc (<[chan := dict_set d ccnum z]> (m_learned_cc s)) s) ;;;
      disable_midi_learn
  | None =>
      if single then for_ (seq 0 16) (λ ch, try_pass (dispatch_cc ch ccnum val))
      else try_pass (dispatch_cc chan ccnum val)
  end.

(** A Python object used as a list index: an int, or (in [midi_unlearn])
    one of the dicts of [learned_cc]. *)
Inductive pyindex :=
| IxInt (n : nat)
| IxDict (d : ccdict).

(** [self.learned_cc[ix]]: indexing a list with a dict is a TypeError. *)
Definition learned_cc_getitem (ix : pyindex) : M ccdict :=
  match ix with
  | IxInt n => learned_cc_get n
  | IxDict _ => raise TypeError
  end.

(** [self.learned_cc[ix].pop(cc)] *)
Definition learned_cc_pop (ix : pyindex) (cc : nat) : M unit :=
  match ix with
  | IxInt n =>
      d <- learned_cc_get n ;;
      modify (λ s, set_learned_cc (<[n := dict_pop d cc]> (m_learned_cc s)) s)
  | IxDict _ => raise TypeError
  end.

(** [for cc in self.learned_cc[ix]: if ...[cc] == zctrl: ...pop(cc)]:
    the iterator walks the keys present when the loop started and raises
    RuntimeError at its next step once the dict changed size. *)
Fixpoint unlearn_dict_loop (ix : pyindex) (size0 : nat) (z : zref) (keys : list nat)
  : M unit :=
  match keys with
  | [] => ret tt
  | cc :: rest =>
      d <- learned_cc_getitem ix ;;
      when (bool_decide (dict_get d cc = Some z)) (learned_cc_pop ix cc) ;;;
      d' <- learned_cc_getitem ix ;;
      if Nat.eqb (length d') size0 then unlearn_dict_loop ix size0 z rest
      else raise RuntimeError
  end.

(** [for chan in self.learned_cc: for cc in self.learned_cc[chan]: ...]:
    [chan] ranges over the dicts themselves. *)
Definition midi_unlearn (z : zref) : M unit :=
  l <- gets m_learned_cc ;;
  for_ l (λ chan,
    d <- learned_cc_getitem (IxDict chan) ;;
    unlearn_dict_loop (IxDict chan) (length d) z (map fst d)).

(** *** Construction *)

Definition make_strip (i : nat) : M strip :=
  lv <- get_level i ;; bl <- get_balance i ;; mu <- get_mute i ;;
  so <- get_solo i ;; mo <- get_mono i ;; ph <- get_phase i ;;
  ret (mkStrip (mkZctrl lv (PyFloat (4 # 5))) (mkZctrl bl (PyFloat 0))
               (mkZctrl mu (PyInt 0)) (mkZctrl so (PyInt 0))
               (mkZctrl mo (PyInt 0)) (mkZctrl ph (PyInt 0))).

(** [__init__] after the [try]/[except] around the library load. *)
Definition init_body : M unit :=
  modify (set_zctrls []) ;;;
  modify (set_learned_cc (repeat [] 16)) ;;;
  n <- get_max_channels ;;
  for_ (seq 0 (n + 1)) (λ i,
    st <- make_strip i ;;
    modify (λ s, set_zctrls (m_zctrls s ++ [st]) s)) ;;;
  modify (set_learn_zctrl None) ;;;
  modify (set_learn_cb false) ;;;
  lib <- gets m_lib ;;
  if lib then modify (set_max lib_max) else raise AttributeError.

(** [zynmixer()]: [load_ok] tells whether [LoadLibrary] and [init()]
    succeeded (otherwise [lib_zynmixer = None]); [pcb] is the
    [processor_cb] left by the base constructor. *)
Definition zynmixer_init (load_ok pcb : bool) : (exc + unit) * mixer :=
  init_body (mkMixer load_ok 0 [] [] None false pcb
                     (if load_ok then [ENative "init" []] else [])).

(** [reset_state()] *)
Definition reset_state : M unit :=
  n <- get_max_channels ;;
  for_ (seq 0 (n + 1)) reset.

(** *** The public operations on a constructed mixer *)

Inductive mixer_op :=
| OSetLevel (c : nat) (v : pyval) (update : bool)
| OSetBalance (c : nat) (v : pyval) (update : bool)
| OSetMute (c : nat) (v : pyval) (update : bool)
| OSetSolo (c : nat) (v : pyval) (update : bool)
| OSetMono (c : nat) (v : pyval) (update : bool)
| OSetPhase (c : nat) (v : pyval) (update : bool)
| OToggleMute (c : nat)
| OToggleSolo (c : nat) (update : bool)
| OToggleMono (c : nat) (update : bool)
| OTogglePhase (c : nat) (update : bool)
| OReset (c : nat)
| OResetState
| OGetState (full : bool)
| OSetState (state : snapshot) (full : bool)
| OMidiControlChange (single : bool) (chan ccnum val : nat)
| OEnableMidiLearn (z : zref)
| ODisableMidiLearn
| OMidiUnlearn (z : zref)
| ODestroy.

(** The channel argument of the operations that index the cache by
    channel. *)
Definition op_chan (o : mixer_op) : option nat :=
  match o with
  | OSetLevel c _ _ | OSetBalance c _ _ | OSetMute c _ _ | OSetSolo c _ _
  | OSetMono c _ _ | OSetPhase c _ _ | OToggleMute c | OToggleSolo c _
  | OToggleMono c _ | OTogglePhase c _ | OReset c => Some c
  | _ => None
  end.

Definition op_with_chan (o : mixer_op) (c : nat) : mixer_op :=
  match o with
  | OSetLevel _ v u => OSetLevel c v u
  | OSetBalance _ v u => OSetBalance c v u
  | OSetMute _ v u => OSetMute c v u
  | OSetSolo _ v u => OSetSolo c v u
  | OSetMono _ v u => OSetMono c v u
  | OSetPhase _ v u => OSetPhase c v u
  | OToggleMute _ => OToggleMute c
  | OToggleSolo _ u => OToggleSolo c u
  | OToggleMono _ u => OToggleMono c u
  | OTogglePhase _ u => OTogglePhase c u
  | OReset _ => OReset c
  | o => o
  end.

Definition run_op (o : mixer_op) : M unit :=
  match o with
  | OSetLevel c v u => set_level c v u
  | OSetBalance c v u => set_balance c v u
  | OSetMute c v u => set_mute (Some c) v u
  | OSetSolo c v u => set_solo c v u
  | OSetMono c v u => set_mono c v u
  | OSetPhase c v u => set_phase c v u
  | OToggleMute c => toggle_mute c
  | OToggleSolo c u => toggle_solo c u
  | OToggleMono c u => toggle_mono c u
  | OTogglePhase c u => toggle_phase c u
  | OReset c => reset c
  | OResetState => reset_state
  | OGetState full => _ <- get_state full ;; ret tt
  | OSetState state full => set_state state full
  | OMidiControlChange single chan ccnum val => midi_control_change single chan ccnum val
  | OEnableMidiLearn z => enable_midi_learn z
  | ODisableMidiLearn => disable_midi_learn
  | OMidiUnlearn z => midi_unlearn z
  | ODestroy => destroy
  end.

(** The cache invariant: one strip per channel plus the main bus, and
    [MAX_NUM_CHANNELS] is what the library reports while it is loaded. *)
Definition mixer_inv (s : mixer) : Prop :=
  length (m_zctrls s) = m_max s + 1 /\ (m_lib s = true -> m_max s = lib_max).

End Zynmixer.

(** The controllers [midi_control_change] hands [val] to, as the spec
    describes them: with [single], the controller bound to [ccnum] on each
    of the 16 channels in turn; otherwise the one bound at [(chan, ccnum)]. *)
Definition cc_targets (s : mixer) (single : bool) (chan ccnum : nat) : list zref :=
  if single then omap (λ ch, bound_at s ch ccnum) (seq 0 16)
  else option_list (bound_at s chan ccnum).



(** A library instance for concrete runs: every getter answers 0. *)
Definition demo_lib_get (h : list event) (fn : string) (args : list carg) : pyval := PyInt 0.

(** A mixer built with two channels. *)
Definition demo_mixer : mixer := snd (zynmixer_init 2 demo_lib_get true false).

(** [demo_mixer] waiting to learn a CC for the controller [ZForeign 3]. *)
Definition demo_learning : mixer := snd (enable_midi_learn (ZForeign 3) demo_mixer).

(** ... after CC 7 arrived on MIDI channel 1. *)
Definition demo_learned : mixer := snd (midi_control_change true 1 7 0 demo_learning).

(** [demo_mixer] after [set_level(1, 7)] and then [destroy()] (which
    raised). *)
Definition demo_destroyed : mixer :=
  snd (destroy (snd (set_level 1 (PyInt 7) true demo_mixer))).


(** [m] keeps the cache invariant and [MAX_NUM_CHANNELS] (= [mx]). *)
Definition keeps_inv {T} (lib_max mx : nat) (m : M T) : Prop :=
  forall s, mixer_inv lib_max s -> m_max s = mx ->
            mixer_inv lib_max (snd (m s)) /\ m_max (snd (m s)) = mx.

(** Besides, [m] never raises IndexError from such a state. *)
Definition index_safe {T} (lib_max mx : nat) (m : M T) : Prop :=
  keeps_inv lib_max mx m /\
  forall s, mixer_inv lib_max s -> m_max s = mx -> fst (m s) <> inl IndexError.

(** State updates that touch neither the cache shape nor the channel count
    and never load the library. *)
Definition frame_ok (f : mixer -> mixer) : Prop :=
  forall s, length (m_zctrls (f s)) = length (m_zctrls s) /\ m_max (f s) = m_max s /\
            (m_lib (f s) = true -> m_lib s = true).


(* ------------------------------------------------------------------ *)
(** ** zynmixer: the other methods *)

Section ZynmixerMore.
Variable lib_max : nat.
Variable lib_get : list event -> string -> list carg -> pyval.

(** [for cc in d: if zctrl == d[cc]: return ...]: the first key, in
    insertion order, whose controller is [z]. *)
Fixpoint dict_find (d : ccdict) (z : zref) : option nat :=
  match d with
  | [] => None
  | (cc, z') :: d' => if decide (z = z') then Some cc else dict_find d' z
  end.

(** The [for chan in range(16)] loop of [get_learned_cc]. *)
Fixpoint get_learned_cc_loop (z : zref) (chans : list nat) : M (option (list nat)) :=
  match chans with
  | [] => ret None
  | chan :: rest =>
      d <- learned_cc_get chan ;;
      match dict_find d z with
      | Some cc => ret (Some [chan; cc])
      | None => get_learned_cc_loop z rest
      end
  end.

(** [get_learned_cc(zctrl)]: [[chan, cc]], or [None] when the loop ends. *)
Definition get_learned_cc (z : zref) : M (option (list nat)) :=
  get_learned_cc_loop z (seq 0 16).

Definition is_channel_routed (channel : nat) : M bool :=
  lib <- gets m_lib ;;
  if lib then (v <- lib_query lib_get "isChannelRouted" [CInt channel] ;;
               ret (negb (py_eqb v (PyInt 0))))
  else ret false.

(** [enable_dpm(chan, enable)] with [int(enable)] of a bool. *)
Definition enable_dpm (chan : nat) (enable : bool) : M unit :=
  lib <- gets m_lib ;;
  if lib then modify (add_log [ENative "enableDpm" [CInt chan; CInt (if enable then 1 else 0)]])
  else ret tt.

(** [set_midi_learn_cb(cb)]; [cb] stands for the truth value of the callback. *)
Definition set_midi_learn_cb (cb : bool) : M unit :=
  modify (set_learn_cb cb).

(** [midi_unlearn_chan(chan)]: [self.zctrls[chan].values] is the bound
    method, not its result, and iterating over it raises TypeError. *)
Definition midi_unlearn_chan (chan : nat) : M unit :=
  zs <- gets m_zctrls ;;
  _ <- lift_opt IndexError (zs !! chan) ;;
  raise TypeError.

(** The public methods of the class on a constructed mixer: the
    operations of [mixer_op], the getters, the methods above and
    [send_controller_value] for a strip controller; left out are
    [get_controllers_dict] and the OSC client methods. *)
Inductive mixer_call :=
| CallOp (o : mixer_op)
| CallGetLevel (c : nat)
| CallGetBalance (c : nat)
| CallGetMute (c : nat)
| CallGetSolo (c : nat)
| CallGetMono (c : nat)
| CallGetPhase (c : nat)
| CallGetDpm (c leg : nat)
| CallGetDpmHold (c leg : nat)
| CallGetMaxChannels
| CallGetLearnedCC (z : zref)
| CallIsChannelRouted (c : nat)
| CallEnableDpm (c : nat) (enable : bool)
| CallSetMidiLearnCb (cb : bool)
| CallMidiUnlearnChan (c : nat)
| CallSendControllerValue (c : nat) (y : symbol).

(** A call, its result dropped. *)
Definition run_call (k : mixer_call) : M unit :=
  match k with
  | CallOp o => run_op lib_max lib_get o
  | CallGetLevel c => _ <- get_level lib_get c ;; ret tt
  | CallGetBalance c => _ <- get_balance lib_get c ;; ret tt
  | CallGetMute c => _ <- get_mute lib_get c ;; ret tt
  | CallGetSolo c => _ <- get_solo lib_get c ;; ret tt
  | CallGetMono c => _ <- get_mono lib_get c ;; ret tt
  | CallGetPhase c => _ <- get_phase lib_get c ;; ret tt
  | CallGetDpm c leg => _ <- get_dpm lib_get c leg ;; ret tt
  | CallGetDpmHold c leg => _ <- get_dpm_hold lib_get c leg ;; ret tt
  | CallGetMaxChannels => _ <- get_max_channels lib_max ;; ret tt
  | CallGetLearnedCC z => _ <- get_learned_cc z ;; ret tt
  | CallIsChannelRouted c => _ <- is_channel_routed c ;; ret tt
  | CallEnableDpm c e => enable_dpm c e
  | CallSetMidiLearnCb cb => set_midi_learn_cb cb
  | CallMidiUnlearnChan c => midi_unlearn_chan c
  | CallSendControllerValue c y => send_controller_value c y
  end.

(** A sequence of calls, each one made whatever the one before raised. *)
Fixpoint run_calls (ks : list mixer_call) (s : mixer) : mixer :=
  match ks with
  | [] => s
  | k :: ks' => run_calls ks' (snd (run_call k s))
  end.

End ZynmixerMore.

(** [m] preserves the relation [P] between the state before and after. *)
Definition preserves {T} (P : mixer -> mixer -> Prop) (m : M T) : Prop :=
  forall s, P s (snd (m s)).

(** The strip controllers at their default values. *)
Definition strip_reset (st : strip) : strip :=
  mkStrip (mkZctrl (zc_default (s_level st)) (zc_default (s_level st)))
          (mkZctrl (zc_default (s_balance st)) (zc_default (s_balance st)))
          (mkZctrl (zc_default (s_mute st)) (zc_default (s_mute st)))
          (mkZctrl (zc_default (s_solo st)) (zc_default (s_solo st)))
          (mkZctrl (zc_default (s_mono st)) (zc_default (s_mono st)))
          (mkZctrl (zc_default (s_phase st)) (zc_default (s_phase st))).

(** The bindings table is left as it was. *)
Definition learned_same (s s' : mixer) : Prop := m_learned_cc s' = m_learned_cc s.

Global Instance learned_same_preorder : PreOrder learned_same.
Proof.
  split.
  - intros s. reflexivity.
  - intros s1 s2 s3 H12 H23. unfold learned_same in *. congruence.
Qed.

(** The library handle is the same before and after. *)
Definition lib_same (s s' : mixer) : Prop := m_lib s' = m_lib s.

Global Instance lib_same_preorder : PreOrder lib_same.
Proof.
  split.
  - intros s. reflexivity.
  - intros s1 s2 s3 H12 H23. unfold lib_same in *. congruence.
Qed.

Section Reach.
Variable lib_max : nat.
Variable lib_get : list event -> string -> list carg -> pyval.

(** The objects a program can hold: what [zynmixer()] returns, then the
    object after any sequence of public calls, each of which may have
    raised (the exception goes to the caller, the object stays). *)
Inductive reachable : mixer -> Prop :=
| reachable_init (pcb : bool) (s : mixer) :
    zynmixer_init lib_max lib_get true pcb = (inr tt, s) -> reachable s
| reachable_call (k : mixer_call) (s : mixer) :
    reachable s -> reachable (snd (run_call lib_max lib_get k s)).

End Reach.

(* ------------------------------------------------------------------ *)
(** ** Control screen: the XY-select mode

    [set_xyselect_mode], [unset_xyselect_mode], [set_xyselect_x],
    [set_xyselect_y], [set_xyselect_controllers] and
    [zynpot_read_xyselect] work on the attributes below and on the
    controller object of each GUI controller
    ([self.zgui_controllers[i].zctrl], which may be None); the GUI
    controllers themselves are seen through the highlight they show. *)

Section XYSelect.
Context {C : Type} `{EqDecision C}.

Record xystate := mkXY {
  xy_mode : bool;              (* xyselect_mode *)
  xy_axis : string;            (* xyselect_zread_axis *)
  xy_counter : nat;            (* xyselect_zread_counter *)
  xy_last : option C;          (* xyselect_zread_last_zctrl *)
  xy_x : option C;             (* x_zctrl *)
  xy_y : option C;             (* y_zctrl *)
  xy_ctrls : list (option C);  (* zgui_controllers[i].zctrl *)
  xy_hl : list bool            (* zgui_controllers[i] highlighted *)
}.

Definition xy_set_mode (b : bool) (st : xystate) : xystate :=
  mkXY b (xy_axis st) (xy_counter st) (xy_last st) (xy_x st) (xy_y st) (xy_ctrls st) (xy_hl st).
Definition xy_set_axis (a : string) (st : xystate) : xystate :=
  mkXY (xy_mode st) a (xy_counter st) (xy_last st) (xy_x st) (xy_y st) (xy_ctrls st) (xy_hl st).
Definition xy_set_counter (n : nat) (st : xystate) : xystate :=
  mkXY (xy_mode st) (xy_axis st) n (xy_last st) (xy_x st) (xy_y st) (xy_ctrls st) (xy_hl st).
Definition xy_set_last (z : option C) (st : xystate) : xystate :=
  mkXY (xy_mode st) (xy_axis st) (xy_counter st) z (xy_x st) (xy_y st) (xy_ctrls st) (xy_hl st).
Definition xy_set_x (z : option C) (st : xystate) : xystate :=
  mkXY (xy_mode st) (xy_axis st) (xy_counter st) (xy_last st) z (xy_y st) (xy_ctrls st) (xy_hl st).
Definition xy_set_y (z : option C) (st : xystate) : xystate :=
  mkXY (xy_mode st) (xy_axis st) (xy_counter st) (xy_last st) (xy_x st) z (xy_ctrls st) (xy_hl st).

(** The highlight [set_xyselect_controllers] gives each GUI controller:
    [set_hl()] when the mode is on and its controller is [x_zctrl] or
    [y_zctrl], [unset_hl()] otherwise. *)
Definition xy_highlight (mode : bool) (x y : option C) (ctrls : list (option C)) : list bool :=
  map (λ z, mode && (bool_decide (z = x) || bool_decide (z = y))) ctrls.

Definition set_xyselect_controllers (st : xystate) : xystate :=
  mkXY (xy_mode st) (xy_axis st) (xy_counter st) (xy_last st) (xy_x st) (xy_y st)
       (xy_ctrls st) (xy_highlight (xy_mode st) (xy_x st) (xy_y st) (xy_ctrls st)).

(** [None] stands for the IndexError of [self.zgui_controllers[i]]. *)
Definition set_xyselect_mode (xctrl_i yctrl_i : nat) (st : xystate) : option xystate :=
  match xy_ctrls st !! xctrl_i, xy_ctrls st !! yctrl_i with
  | Some xz, Some yz =>
      Some (set_xyselect_controllers
              (xy_set_y yz (xy_set_x xz (xy_set_last None (xy_set_counter 0
                 (xy_set_axis "X" (xy_set_mode true st)))))))
  | _, _ => None
  end.

Definition unset_xyselect_mode (st : xystate) : xystate :=
  set_xyselect_controllers (xy_set_mode false st).

(** [set_xyselect_x(i)]: [true] for [return True], [false] for the
    implicit [return None]. *)
Definition set_xyselect_x (xctrl_i : nat) (st : xystate) : option (bool * xystate) :=
  match xy_ctrls st !! xctrl_i with
  | Some zctrl =>
      if bool_decide (xy_x st <> zctrl) && bool_decide (xy_y st <> zctrl)
      then Some (true, set_xyselect_controllers (xy_set_x zctrl st))
      else Some (false, st)
  | None => None
  end.

Definition set_xyselect_y (yctrl_i : nat) (st : xystate) : option (bool * xystate) :=
  match xy_ctrls st !! yctrl_i with
  | Some zctrl =>
      if bool_decide (xy_y st <> zctrl) && bool_decide (xy_x st <> zctrl)
      then Some (true, set_xyselect_controllers (xy_set_y zctrl st))
      else Some (false, st)
  | None => None
  end.

Definition zynpot_read_xyselect (i : nat) (st : xystate) : option xystate :=
  match xy_ctrls st !! i with
  | None => None
  | Some z =>
      let st1 := if bool_decide (z = xy_last st)
                 then xy_set_counter (S (xy_counter st)) st
                 else xy_set_counter 0 (xy_set_last z st) in
      if Nat.ltb 5 (xy_counter st1) then
        if String.eqb (xy_axis st1) "X" then
          match set_xyselect_x i st1 with
          | Some (true, st2) => Some (xy_set_counter 0 (xy_set_axis "Y" st2))
          | Some (false, st2) => Some st2
          | None => None
          end
        else if String.eqb (xy_axis st1) "Y" then
          match set_xyselect_y i st1 with
          | Some (true, st2) => Some (xy_set_counter 0 (xy_set_axis "X" st2))
          | Some (false, st2) => Some st2
          | None => None
          end
        else Some st1
      else Some st1
  end.

(** Successive pot readings in XY-select mode, as [zynpot_cb] hands them
    to [zynpot_read_xyselect]. *)
Fixpoint zynpot_reads (is : list nat) (st : xystate) : option xystate :=
  match is with
  | [] => Some st
  | i :: is' =>
      match zynpot_read_xyselect i st with
      | Some st' => zynpot_reads is' st'
      | None => None
      end
  end.

(** X and Y are two different controllers and the highlight shows them. *)
Definition xy_ok (st : xystate) : Prop :=
  xy_x st <> xy_y st /\
  xy_hl st = xy_highlight (xy_mode st) (xy_x st) (xy_y st) (xy_ctrls st).

End XYSelect.

(* ------------------------------------------------------------------ *)
(** ** Control screen: [fill_list]

    The loop of [fill_list] over [self.layers] once that list is built.
    A layer is known by its identity ([==] on layers is identity), the
    [engine.name] and the titles that iterating [get_ctrl_screens()]
    yields; a title is truthy when it is not empty. *)

Record glayer := mkGLayer { gl_id : nat; gl_name : string; gl_screens : list string }.

(** A row of [list_data]: a layer header [(None, None, "> name")] or a
    screen [(cscr, i, cscr, layer, j)]. *)
Inductive ld_entry :=
| LHeader (title : string)
| LScreen (cscr : string) (i : nat) (layer : nat) (j : nat).

(** [s.split("/")[-1]] *)
Fixpoint last_seg_go (s acc : string) : string :=
  match s with
  | EmptyString => acc
  | String c r => if Ascii.eqb c "/"%char then last_seg_go r EmptyString
                  else last_seg_go r (acc +:+ String c EmptyString)
  end.

Definition last_seg (s : string) : string := last_seg_go s EmptyString.

(** [for cscr in screen_list: ...], with [list_data], [i], [j],
    [layers_changed] and [index] as its state. *)
Fixpoint fill_screens (l : glayer) (cur : nat) (scrs : list string) (i j : nat)
    (changed : bool) (index : nat) (acc : list ld_entry)
  : list ld_entry * nat * bool * nat :=
  match scrs with
  | [] => (acc, i, changed, index)
  | cscr :: rest =>
      let acc' := (acc ++ [LScreen cscr i (gl_id l) j])%list in
      if changed && negb (String.eqb cscr EmptyString) && Nat.eqb (gl_id l) cur
      then fill_screens l cur rest (S i) (S j) false (S i) acc'
      else fill_screens l cur rest (S i) (S j) changed index acc'
  end.

(** [for layer in self.layers: ...]; [nl] is [len(self.layers)] and
    [cur] the identity of [self.zyngui.curlayer]. *)
Fixpoint fill_layers (nl cur : nat) (ls : list glayer) (i : nat) (changed : bool)
    (index : nat) (acc : list ld_entry) : list ld_entry * nat * bool * nat :=
  match ls with
  | [] => (acc, i, changed, index)
  | l :: rest =>
      match gl_screens l with
      | [] => fill_layers nl cur rest i changed index acc
      | scrs =>
          let acc1 := if Nat.ltb 1 nl
                      then (acc ++ [LHeader ("> " +:+ last_seg (gl_name l))])%list
                      else acc in
          let '(acc2, i2, ch2, ix2) := fill_screens l cur scrs i 0 changed index acc1 in
          fill_layers nl cur rest i2 ch2 ix2 acc2
      end
  end.

(** [self.list_data], [self.layers_changed] and [self.index] after the
    loop of [fill_list]. *)
Definition fill_list (ls : list glayer) (cur : nat) (changed : bool) (index : nat)
  : list ld_entry * bool * nat :=
  let '(ld, _, ch, ix) := fill_layers (length ls) cur ls 0 changed index [] in (ld, ch, ix).

(** The number of screens of the layers [ls], and of those layers that
    have screens (and so a header row). *)
Definition n_screens (ls : list glayer) : nat := sum_list_with (λ l, length (gl_screens l)) ls.
Definition n_with_screens (ls : list glayer) : nat :=
  length (filter (λ l, gl_screens l <> []) ls).

(** An XY-select state for concrete runs: controllers 1 and 2 on X and Y,
    controller 3 on the third GUI controller. *)
Definition demo_xy : @xystate nat :=
  mkXY true "X" 0 None (Some 1) (Some 2) [Some 1; Some 2; Some 3]
       (xy_highlight true (Some 1) (Some 2) [Some 1; Some 2; Some 3]).

(** Layers for concrete runs of [fill_list]: a MIDI effect, the current
    synth layer and an audio effect without screens. *)
Definition demo_pre : list glayer := [mkGLayer 1 "midi/arpeggiator" ["arp"]].
Definition demo_cur : glayer := mkGLayer 2 "synth/ZynAddSubFX" ["main"; "filter"].
Definition demo_post : list glayer := [mkGLayer 3 "audio/reverb" []].


(* ================================================================== *)
(** * Properties *)

(* ------------------------------------------------------------------ *)
(** ** setBfree *)

(** C10: every controller of the five screens of [map_list] has a CC
    number in 0..127, the CC numbers are pairwise distinct, and
    [default_ctrl_config] is the controller list of the first screen,
    [main]. *)
Theorem map_list_well_formed :
  length map_list = 5 /\
  Forall (λ cc, (0 <= cc <= 127)%Z) all_ccs /\
  NoDup all_ccs /\
  map_list !! 0 = Some (default_ctrl_config, 0%Z, "main").
Proof.
  split; [reflexivity|].
  split; [vm_compute; repeat constructor; discriminate|].
  split; [apply (bool_decide_unpack _); vm_compute; exact I|].
  reflexivity.
Qed.

Lemma sapp_cons (c : ascii) (s t : string) : String c s +:+ t = String c (s +:+ t).
Proof. reflexivity. Qed.


Lemma sapp_assoc (a b c : string) : a +:+ (b +:+ c) = (a +:+ b) +:+ c.
Proof. induction a as [|x a IH]; [reflexivity|]. rewrite !sapp_cons, IH. reflexivity. Qed.











(** A sample program bank. *)
Example pgm_example :
  let q t := String dq (t +:+ String dq EmptyString) in
  load_pgm_list ("12 { name=" +:+ q "Jazz" +:+ " }" +:+ String nl EmptyString +:+
                 "0{name=" +:+ q "Zero" +:+ String cr EmptyString +:+
                 "# comment" +:+ String nl EmptyString +:+
                 "003" +:+ String "009"%char EmptyString +:+ "{name=" +:+ q "Ba" +:+
                 String nl EmptyString +:+ "5{name=" +:+ q "")
  = [(0, [0; 0; 11], "Jazz"); (1, [0; 0; 2], "Ba")]%Z.
Proof. reflexivity. Qed.

(* ------------------------------------------------------------------ *)
(** ** Control screen *)

(** C9: [previous_page] selects [max(index - 1, 0)] whatever [wrap] is;
    [next_page] selects [index + 1], except at the last entry, where it
    selects 0 with [wrap] and stays on the last entry without; on a
    current entry of a non-empty list the selection stays within
    [0 .. len(list_data) - 1]. *)
Theorem page_navigation {A : Type} (index : Z) (list_data : list A) (wrap : bool) :
  (0 <= index < Z.of_nat (length list_data))%Z ->
  previous_page index list_data wrap = Z.max (index - 1) 0 /\
  next_page index list_data wrap =
    (if (index =? Z.of_nat (length list_data) - 1)%Z
     then (if wrap then 0 else index) else index + 1)%Z /\
  (0 <= previous_page index list_data wrap < Z.of_nat (length list_data))%Z /\
  (0 <= next_page index list_data wrap < Z.of_nat (length list_data))%Z.
Proof.
  intros H. unfold previous_page, next_page.
  destruct (Z.ltb_spec (index - 1) 0), (Z.leb_spec (Z.of_nat (length list_data)) (index + 1)),
           (Z.eqb_spec index (Z.of_nat (length list_data) - 1)), wrap;
    repeat split; lia.
Qed.

(* ------------------------------------------------------------------ *)
(** ** zynmixer *)

Section ZynmixerProofs.
Local Open Scope list_scope.

Variable lib_max : nat.
Variable lib_get : list event -> string -> list carg -> pyval.

Lemma add_log_app (l1 l2 : list event) (s : mixer) :
  add_log l2 (add_log l1 s) = add_log (l1 ++ l2) s.
Proof. destruct s; unfold add_log; simpl. rewrite app_assoc. reflexivity. Qed.

Lemma add_log_nil (s : mixer) : add_log [] s = s.
Proof. destruct s; unfold add_log; simpl. rewrite app_nil_r. reflexivity. Qed.

Lemma bound_at_add_log (l : list event) (s : mixer) (ch cc : nat) :
  bound_at (add_log l s) ch cc = bound_at s ch cc.
Proof. reflexivity. Qed.

Lemma dict_get_set_eq (d : ccdict) (k : nat) (z : zref) :
  dict_get (dict_set d k z) k = Some z.
Proof.
  induction d as [|[k0 z0] d IH]; simpl.
  - rewrite Nat.eqb_refl. reflexivity.
  - destruct (Nat.eqb_spec k k0) as [->|Hne]; simpl.
    + rewrite Nat.eqb_refl. reflexivity.
    + destruct (Nat.eqb_spec k k0); [contradiction|exact IH].
Qed.

Lemma dict_get_set_ne (d : ccdict) (k k' : nat) (z : zref) :
  k' <> k -> dict_get (dict_set d k z) k' = dict_get d k'.
Proof.
  intros Hne. induction d as [|[k0 z0] d IH]; simpl.
  - destruct (Nat.eqb_spec k' k); [contradiction|reflexivity].
  - destruct (Nat.eqb_spec k k0) as [->|Hk]; simpl.
    + destruct (Nat.eqb_spec k' k0); [contradiction|reflexivity].
    + destruct (Nat.eqb_spec k' k0); [reflexivity|exact IH].
Qed.

(** One guarded dispatch: [try: learned_cc[ch][ccnum].midi_control_change(val)
    except: pass]. *)
Lemma try_dispatch_run (ch ccnum val : nat) (s : mixer) :
  try_pass (dispatch_cc ch ccnum val) s =
  (inr tt, add_log (map (λ z, ECtrlMCC z val) (option_list (bound_at s ch ccnum))) s).
Proof.
  unfold try_pass, try_except, dispatch_cc, learned_cc_get, bound_at,
    bind, gets, lift_opt, modify, raise, ret.
  destruct (m_learned_cc s !! ch) as [d|]; simpl.
  - destruct (dict_get d ccnum); simpl; [reflexivity|].
    rewrite add_log_nil. reflexivity.
  - rewrite add_log_nil. reflexivity.
Qed.

Lemma for_dispatch_run (chs : list nat) (ccnum val : nat) (s : mixer) :
  for_ chs (λ ch, try_pass (dispatch_cc ch ccnum val)) s =
  (inr tt, add_log (map (λ z, ECtrlMCC z val) (omap (λ ch, bound_at s ch ccnum) chs)) s).
Proof.
  revert s. induction chs as [|ch chs IH]; intros s; simpl.
  - rewrite add_log_nil. reflexivity.
  - unfold bind at 1. rewrite try_dispatch_run, IH, add_log_app.
    destruct (bound_at s ch ccnum); reflexivity.
Qed.

(** C1: with no controller pending learn, [midi_control_change] hands
    [val] to the controllers [cc_targets] names and changes nothing else:
    with [midi_single_active_channel], to every controller bound to [ccnum]
    on any of the 16 channels, whatever [chan] is; otherwise only to the
    one bound at [(chan, ccnum)]. When no such controller is bound, the
    state is left unchanged. *)
Theorem midi_control_change_dispatch (single : bool) (chan ccnum val : nat) (s : mixer) :
  m_learn_zctrl s = None ->
  midi_control_change single chan ccnum val s =
    (inr tt, add_log (map (λ z, ECtrlMCC z val) (cc_targets s single chan ccnum)) s) /\
  (cc_targets s single chan ccnum = [] ->
   midi_control_change single chan ccnum val s = (inr tt, s)).
Proof.
  intros Hl.
  assert (Hrun : midi_control_change single chan ccnum val s =
    (inr tt, add_log (map (λ z, ECtrlMCC z val) (cc_targets s single chan ccnum)) s)).
  { unfold midi_control_change, bind at 1, gets. rewrite Hl.
    unfold cc_targets. destruct single.
    - apply for_dispatch_run.
    - apply try_dispatch_run. }
  split; [exact Hrun|].
  intros Hnil. rewrite Hrun, Hnil. simpl. rewrite add_log_nil. reflexivity.
Qed.

(** C2: with [z] pending learn, the next control change binds [z] at
    [learned_cc[chan][ccnum]] (other slots keep their binding), clears the
    pending learn and calls the learn callback, and forwards nothing. *)
Theorem midi_learn_binds (single : bool) (chan ccnum val : nat) (z : zref) (s : mixer) :
  m_learn_zctrl s = Some z ->
  length (m_learned_cc s) = 16 -> chan < 16 ->
  let '(r, s') := midi_control_change single chan ccnum val s in
  r = inr tt /\
  bound_at s' chan ccnum = Some z /\
  (forall ch cc, (ch, cc) <> (chan, ccnum) -> bound_at s' ch cc = bound_at s ch cc) /\
  m_learn_zctrl s' = None /\
  m_log s' = m_log s ++ (if m_learn_cb s then [ELearnCb] else []) /\
  m_zctrls s' = m_zctrls s.
Proof.
  intros Hz Hlen Hch.
  destruct (lookup_lt_is_Some_2 (m_learned_cc s) chan) as [d Hd]; [lia|].
  unfold midi_control_change, disable_midi_learn, learned_cc_get, lift_opt,
    bind, gets, modify, when, ret.
  rewrite Hz. simpl. rewrite Hd. simpl.
  assert (Hb : forall ch cc,
    bound_at (set_learned_cc (<[chan := dict_set d ccnum z]> (m_learned_cc s)) s) ch cc =
    if decide ((ch, cc) = (chan, ccnum)) then Some z else bound_at s ch cc).
  { intros ch cc. unfold bound_at, set_learned_cc; simpl.
    destruct (decide (ch = chan)) as [->|Hne].
    - rewrite list_lookup_insert_eq by lia. simpl.
      destruct (decide (cc = ccnum)) as [->|Hcc].
      + rewrite decide_True by reflexivity. apply dict_get_set_eq.
      + rewrite decide_False by congruence. rewrite Hd. simpl.
        apply dict_get_set_ne, Hcc.
    - rewrite list_lookup_insert_ne by congruence.
      rewrite decide_False by congruence. reflexivity. }
  destruct (m_learn_cb s) eqn:Hcb; simpl.
  - repeat split.
    + rewrite bound_at_add_log. unfold set_learn_zctrl.
      specialize (Hb chan ccnum). rewrite decide_True in Hb by reflexivity. exact Hb.
    + intros ch cc Hne. specialize (Hb ch cc). rewrite decide_False in Hb by exact Hne.
      exact Hb.
  - rewrite app_nil_r. repeat split.
    + specialize (Hb chan ccnum). rewrite decide_True in Hb by reflexivity. exact Hb.
    + intros ch cc Hne. specialize (Hb ch cc). rewrite decide_False in Hb by exact Hne.
      exact Hb.
Qed.

(** C3: [midi_unlearn] indexes the list [learned_cc] with one of its own
    dicts and raises TypeError on its first step, whatever [zctrl] is
    and whatever is bound; nothing is removed. *)
Theorem midi_unlearn_type_error (z : zref) (s : mixer) :
  m_learned_cc s <> [] ->
  midi_unlearn z s = (inl TypeError, s).
Proof.
  intros Hne. unfold midi_unlearn, bind at 1, gets.
  destruct (m_learned_cc s) as [|d l]; [contradiction|].
  reflexivity.
Qed.

Lemma bind_inr {T U} (m : M T) (k : T -> M U) (s : mixer) (a : T) (s' : mixer) :
  m s = (inr a, s') -> bind m k s = k a s'.
Proof. intros H. unfold bind. rewrite H. reflexivity. Qed.

Lemma bind_inl {T U} (m : M T) (k : T -> M U) (s : mixer) (e : exc) (s' : mixer) :
  m s = (inl e, s') -> bind m k s = (inl e, s').
Proof. intros H. unfold bind. rewrite H. reflexivity. Qed.

Lemma for_nil {T} (body : T -> M unit) (s : mixer) : for_ [] body s = (inr tt, s).
Proof. reflexivity. Qed.

Lemma for_cons {T} (x : T) (l : list T) (body : T -> M unit) :
  for_ (x :: l) body = (body x ;;; for_ l body).
Proof. reflexivity. Qed.

Lemma make_strip_run (i : nat) (s : mixer) :
  m_lib s = true -> exists st, make_strip lib_get i s = (inr st, s).
Proof.
  destruct s as [lib mx zs lc lz lcb pcb lg]; simpl; intros ->.
  eexists. reflexivity.
Qed.

Lemma init_loop_run (l : list nat) (s : mixer) :
  m_lib s = true ->
  exists s', for_ l (λ i, st <- make_strip lib_get i ;;
                          modify (λ s, set_zctrls (m_zctrls s ++ [st]) s)) s = (inr tt, s') /\
             m_lib s' = true /\ m_max s' = m_max s /\
             length (m_zctrls s') = length (m_zctrls s) + length l.
Proof.
  revert s. induction l as [|i l IH]; intros s Hl.
  - exists s. rewrite for_nil. split; [reflexivity|].
    split; [exact Hl|]. simpl. split; [reflexivity|lia].
  - destruct (make_strip_run i s Hl) as [st Hst].
    rewrite for_cons. erewrite bind_inr.
    2:{ erewrite bind_inr by exact Hst. reflexivity. }
    destruct (IH (set_zctrls (m_zctrls s ++ [st]) s) Hl) as (s' & Hrun & Hl' & Hmx & Hlen).
    exists s'. rewrite Hrun. split; [reflexivity|]. split; [exact Hl'|].
    split; [exact Hmx|]. rewrite Hlen. unfold set_zctrls; simpl.
    rewrite length_app. simpl. lia.
Qed.

Lemma init_true_run (pcb : bool) :
  exists s, zynmixer_init lib_max lib_get true pcb = (inr tt, s) /\
            m_lib s = true /\ mixer_inv lib_max s.
Proof.
  unfold zynmixer_init, init_body.
  set (s0 := set_learned_cc (repeat [] 16)
               (set_zctrls [] (mkMixer true 0 [] [] None false pcb [ENative "init" []]))).
  destruct (init_loop_run (seq 0 (lib_max + 1)) s0 eq_refl) as (s' & Hrun & Hl & Hmx & Hlen).
  erewrite bind_inr by reflexivity. erewrite bind_inr by reflexivity.
  fold s0. erewrite bind_inr by reflexivity. simpl (if m_lib s0 then _ else _).
  erewrite bind_inr by exact Hrun.
  erewrite bind_inr by reflexivity. erewrite bind_inr by reflexivity.
  erewrite bind_inr by reflexivity.
  unfold gets, set_learn_cb, set_learn_zctrl. cbn [m_lib]. rewrite Hl.
  eexists. split; [reflexivity|]. split; [reflexivity|].
  unfold mixer_inv, set_max, set_learn_cb, set_learn_zctrl; simpl.
  rewrite Hlen, length_seq. simpl. split; [lia|reflexivity].
Qed.

Lemma strip_get_set (st : strip) (y y' : symbol) (z : zctrl) :
  strip_get (strip_set st y z) y' = if decide (y' = y) then z else strip_get st y'.
Proof. destruct y, y'; reflexivity. Qed.

(** Writing the controller [(c, y)] of the cache changes that controller only. *)
Lemma strip_lookup_insert (l : list strip) (c : nat) (st : strip) (y : symbol) (z : zctrl)
    (c' : nat) (y' : symbol) :
  l !! c = Some st ->
  (λ st, strip_get st y') <$> (<[c := strip_set st y z]> l !! c') =
  if decide ((c', y') = (c, y)) then Some z else (λ st, strip_get st y') <$> l !! c'.
Proof.
  intros Hst.
  destruct (decide (c' = c)) as [->|Hne].
  - rewrite list_lookup_insert_eq by (apply lookup_lt_is_Some_1; rewrite Hst; eauto).
    simpl. rewrite strip_get_set, Hst. simpl.
    destruct (decide (y' = y)) as [->|Hy].
    + rewrite decide_True by reflexivity. reflexivity.
    + rewrite decide_False by congruence. reflexivity.
  - rewrite list_lookup_insert_ne by congruence.
    rewrite decide_False by congruence. reflexivity.
Qed.







(** *** Invariant preservation and index safety, combinator by combinator *)

Lemma frame_add_log (l : list event) : frame_ok (add_log l).
Proof. intros [] ; simpl; auto. Qed.

Lemma frame_set_learned_cc (g : mixer -> list ccdict) :
  frame_ok (λ s, set_learned_cc (g s) s).
Proof. intros []; simpl; auto. Qed.

Lemma frame_set_learned_cc_const (x : list ccdict) : frame_ok (set_learned_cc x).
Proof. intros []; simpl; auto. Qed.

Lemma frame_set_learn_zctrl (x : option zref) : frame_ok (set_learn_zctrl x).
Proof. intros []; simpl; auto. Qed.

Lemma frame_set_learn_cb (b : bool) : frame_ok (set_learn_cb b).
Proof. intros []; simpl; auto. Qed.

Lemma frame_set_lib_false : frame_ok (set_lib false).
Proof. intros []; simpl; repeat split; discriminate. Qed.

Lemma bind_assoc {T U V} (m : M T) (f : T -> M U) (k : U -> M V) (s : mixer) :
  bind (bind m f) k s = bind m (λ x, bind (f x) k) s.
Proof. unfold bind. destruct (m s) as [[e|a] s']; reflexivity. Qed.

Lemma bind_ret_l {T U} (a : T) (k : T -> M U) (s : mixer) : bind (ret a) k s = k a s.
Proof. reflexivity. Qed.

Section Combinators.
Variable mx : nat.

Lemma kinv_ext {T} (m m' : M T) : (forall s, m s = m' s) ->
  keeps_inv lib_max mx m' -> keeps_inv lib_max mx m.
Proof. intros E H s Hi Hx. rewrite E. apply H; assumption. Qed.

Lemma kinv_readonly {T} (m : M T) : (forall s, snd (m s) = s) -> keeps_inv lib_max mx m.
Proof. intros H s Hi Hx. rewrite H. split; assumption. Qed.

Lemma kinv_ret {T} (a : T) : keeps_inv lib_max mx (ret a).
Proof. apply kinv_readonly. reflexivity. Qed.

Lemma kinv_raise {T} (e : exc) : keeps_inv lib_max mx (@raise T e).
Proof. apply kinv_readonly. reflexivity. Qed.

Lemma kinv_gets {T} (f : mixer -> T) : keeps_inv lib_max mx (gets f).
Proof. apply kinv_readonly. reflexivity. Qed.

Lemma kinv_modify (f : mixer -> mixer) : frame_ok f -> keeps_inv lib_max mx (modify f).
Proof.
  intros Hf s [Hlen Hlib] Hx. destruct (Hf s) as (A & B & C). simpl.
  unfold mixer_inv. rewrite A, B. split; [split|]; auto.
Qed.

Lemma kinv_bind {T U} (m : M T) (k : T -> M U) :
  keeps_inv lib_max mx m -> (forall a, keeps_inv lib_max mx (k a)) ->
  keeps_inv lib_max mx (bind m k).
Proof.
  intros Hm Hk s Hi Hx. specialize (Hm s Hi Hx). unfold bind.
  destruct (m s) as [[e|a] s']; simpl in *; [exact Hm|].
  destruct Hm. apply Hk; assumption.
Qed.

Lemma kinv_try_except (m h : M unit) :
  keeps_inv lib_max mx m -> keeps_inv lib_max mx h ->
  keeps_inv lib_max mx (try_except m h).
Proof.
  intros Hm Hh s Hi Hx. specialize (Hm s Hi Hx). unfold try_except.
  destruct (m s) as [[e|a] s']; simpl in *; [|exact Hm].
  destruct Hm. apply Hh; assumption.
Qed.

Lemma kinv_when (b : bool) (m : M unit) :
  keeps_inv lib_max mx m -> keeps_inv lib_max mx (when b m).
Proof. destruct b; [auto|intros; apply kinv_ret]. Qed.

Lemma kinv_for_ {T} (l : list T) (body : T -> M unit) :
  (forall x, keeps_inv lib_max mx (body x)) -> keeps_inv lib_max mx (for_ l body).
Proof.
  intros H. induction l as [|x l IH]; [apply kinv_ret|].
  rewrite for_cons. apply kinv_bind; auto.
Qed.

Lemma kinv_lift_opt {T} (e : exc) (o : option T) : keeps_inv lib_max mx (lift_opt e o).
Proof. destruct o; [apply kinv_ret|apply kinv_raise]. Qed.

Lemma kinv_zctrl_set_value (c : nat) (y : symbol) (v : pyval) :
  keeps_inv lib_max mx (zctrl_set_value c y v).
Proof.
  intros s [Hlen Hlib] Hx. unfold zctrl_set_value.
  destruct (m_zctrls s !! c); simpl; [|split; [split|]; assumption].
  unfold mixer_inv; simpl. rewrite length_insert. split; [split|]; assumption.
Qed.

Lemma kinv_zctrl_reset_value (c : nat) (y : symbol) :
  keeps_inv lib_max mx (zctrl_reset_value c y).
Proof.
  intros s [Hlen Hlib] Hx. unfold zctrl_reset_value.
  destruct (m_zctrls s !! c); simpl; [|split; [split|]; assumption].
  unfold mixer_inv; simpl. rewrite length_insert. split; [split|]; assumption.
Qed.

Lemma isafe_ext {T} (m m' : M T) : (forall s, m s = m' s) ->
  index_safe lib_max mx m' -> index_safe lib_max mx m.
Proof.
  intros E [H1 H2]. split; [apply (kinv_ext m m' E H1)|].
  intros s Hi Hx. rewrite E. apply H2; assumption.
Qed.

Lemma isafe_ret {T} (a : T) : index_safe lib_max mx (ret a).
Proof. split; [apply kinv_ret|]. intros; discriminate. Qed.

Lemma isafe_raise {T} (e : exc) : e <> IndexError -> index_safe lib_max mx (@raise T e).
Proof. intros He. split; [apply kinv_raise|]. intros s _ _ H. injection H. exact He. Qed.

Lemma isafe_gets {T} (f : mixer -> T) : index_safe lib_max mx (gets f).
Proof. split; [apply kinv_gets|]. intros; discriminate. Qed.

Lemma isafe_modify (f : mixer -> mixer) : frame_ok f -> index_safe lib_max mx (modify f).
Proof. intros Hf. split; [apply kinv_modify, Hf|]. intros; discriminate. Qed.

Lemma isafe_bind {T U} (m : M T) (k : T -> M U) :
  index_safe lib_max mx m -> (forall a, index_safe lib_max mx (k a)) ->
  index_safe lib_max mx (bind m k).
Proof.
  intros [Hm1 Hm2] Hk. split; [apply kinv_bind; [exact Hm1|intros a; apply Hk]|].
  intros s Hi Hx. specialize (Hm1 s Hi Hx). specialize (Hm2 s Hi Hx). unfold bind.
  destruct (m s) as [[e|a] s']; simpl in *.
  - intros He. apply Hm2. injection He as ->. reflexivity.
  - destruct Hm1. apply Hk; assumption.
Qed.

Lemma isafe_bind_clamp {T} (c : nat) (k : nat -> M T) :
  (forall c', c' <= mx -> index_safe lib_max mx (k c')) ->
  index_safe lib_max mx (bind (clamp c) k).
Proof.
  intros Hk.
  assert (Hle : forall s, m_max s = mx ->
            (if Nat.leb (m_max s) c then m_max s else c) <= mx)
    by (intros s Hx; destruct (Nat.leb_spec (m_max s) c); lia).
  split.
  - intros s Hi Hx. apply (Hk _ (Hle s Hx)); assumption.
  - intros s Hi Hx. apply (Hk _ (Hle s Hx)); assumption.
Qed.

Lemma isafe_try_except (m h : M unit) :
  keeps_inv lib_max mx m -> index_safe lib_max mx h ->
  index_safe lib_max mx (try_except m h).
Proof.
  intros Hm [Hh1 Hh2]. split; [apply kinv_try_except; assumption|].
  intros s Hi Hx. specialize (Hm s Hi Hx). unfold try_except.
  destruct (m s) as [[e|a] s']; simpl in *; [|discriminate].
  destruct Hm. apply Hh2; assumption.
Qed.

Lemma isafe_when (b : bool) (m : M unit) :
  index_safe lib_max mx m -> index_safe lib_max mx (when b m).
Proof. destruct b; [auto|intros; apply isafe_ret]. Qed.

Lemma isafe_for_ {T} (l : list T) (body : T -> M unit) :
  (forall x, index_safe lib_max mx (body x)) -> index_safe lib_max mx (for_ l body).
Proof.
  intros H. induction l as [|x l IH]; [apply isafe_ret|].
  rewrite for_cons. apply isafe_bind; auto.
Qed.

Lemma isafe_zctrl_set_value (c : nat) (y : symbol) (v : pyval) :
  c <= mx -> index_safe lib_max mx (zctrl_set_value c y v).
Proof.
  intros Hc. split; [apply kinv_zctrl_set_value|].
  intros s [Hlen _] Hx. unfold zctrl_set_value.
  destruct (lookup_lt_is_Some_2 (m_zctrls s) c) as [st Hst]; [lia|].
  rewrite Hst. discriminate.
Qed.

Lemma isafe_zctrl_reset_value (c : nat) (y : symbol) :
  c <= mx -> index_safe lib_max mx (zctrl_reset_value c y).
Proof.
  intros Hc. split; [apply kinv_zctrl_reset_value|].
  intros s [Hlen _] Hx. unfold zctrl_reset_value.
  destruct (lookup_lt_is_Some_2 (m_zctrls s) c) as [st Hst]; [lia|].
  rewrite Hst. discriminate.
Qed.

Lemma isafe_bind_assoc {T U V} (m : M T) (f : T -> M U) (k : U -> M V) :
  index_safe lib_max mx (bind m (λ x, bind (f x) k)) ->
  index_safe lib_max mx (bind (bind m f) k).
Proof. apply isafe_ext. intros s. apply bind_assoc. Qed.

Lemma isafe_bind_ret {T U} (a : T) (k : T -> M U) :
  index_safe lib_max mx (k a) -> index_safe lib_max mx (bind (ret a) k).
Proof. apply isafe_ext. intros s. apply bind_ret_l. Qed.

End Combinators.

Ltac frame_tac :=
  first [ apply frame_add_log | apply frame_set_learned_cc | apply frame_set_learned_cc_const
        | apply frame_set_learn_zctrl | apply frame_set_learn_cb | apply frame_set_lib_false ].

Ltac unfold_ops :=
  unfold run_op, set_level, set_balance, set_mute, set_solo, set_mono, set_phase,
    toggle_mute, toggle_solo, toggle_mono, toggle_phase, reset, reset_state,
    get_state, set_state, set_state_ctrl, zctrl_set_value_send, send_controller_value,
    setter, set_midi_learn, midi_control_change, learned_cc_get, disable_midi_learn,
    enable_midi_learn, dispatch_cc, try_pass, midi_unlearn, learned_cc_getitem,
    learned_cc_pop, destroy, lib_call, lib_query, send_update, get_solo, get_mono,
    get_max_channels;
  cbv zeta.

Lemma marshal_error_not_index (args : list carg) (e : exc) :
  marshal_error args = Some e -> e <> IndexError.
Proof.
  assert (Hev : forall a e', carg_eval_error a = Some e' -> e' <> IndexError).
  { intros [n| |v|v] e'; simpl; try discriminate.
    destruct v; simpl; try discriminate; [intros [= <-]; discriminate|].
    case_match; [discriminate|intros [= <-]; discriminate]. }
  assert (Hcv : forall a e', carg_conv_error a = Some e' -> e' <> IndexError).
  { intros [n| |v|v] e'; simpl; try discriminate.
    destruct v; simpl; try discriminate; [|intros [= <-]; discriminate].
    case_match; [discriminate|intros [= <-]; discriminate]. }
  unfold marshal_error.
  destruct (omap carg_eval_error args) as [|e1 l1] eqn:E1.
  - destruct (omap carg_conv_error args) as [|e2 l2] eqn:E2; [discriminate|].
    intros [= <-].
    assert (Hin : e2 ∈ omap carg_conv_error args) by (rewrite E2; left).
    apply list_elem_of_omap in Hin as (a & _ & Ha). exact (Hcv a e2 Ha).
  - intros [= <-].
    assert (Hin : e1 ∈ omap carg_eval_error args) by (rewrite E1; left).
    apply list_elem_of_omap in Hin as (a & _ & Ha). exact (Hev a e1 Ha).
Qed.

Ltac isafe_step :=
  match goal with
  | |- index_safe _ _ (match marshal_error ?a with _ => _ end) =>
      let E := fresh "E" in
      destruct (marshal_error a) eqn:E;
      [apply isafe_raise; exact (marshal_error_not_index _ _ E)|]
  | |- index_safe _ _ (bind (clamp _) _) => apply isafe_bind_clamp; intros ?c ?Hc
  | |- index_safe _ _ (bind (bind _ _) _) => apply isafe_bind_assoc; cbv beta
  | |- index_safe _ _ (bind (ret _) _) => apply isafe_bind_ret; cbv beta iota
  | |- index_safe _ _ (bind _ _) => apply isafe_bind; intros
  | |- index_safe _ _ (when _ _) => apply isafe_when
  | |- index_safe _ _ (for_ _ _) => apply isafe_for_; intros
  | |- index_safe _ _ (ret _) => apply isafe_ret
  | |- index_safe _ _ (raise _) => apply isafe_raise; discriminate
  | |- index_safe _ _ (gets _) => apply isafe_gets
  | |- index_safe _ _ (modify _) => apply isafe_modify; frame_tac
  | |- index_safe _ _ (zctrl_set_value _ _ _) => apply isafe_zctrl_set_value; lia
  | |- index_safe _ _ (zctrl_reset_value _ _) => apply isafe_zctrl_reset_value; lia
  | |- index_safe _ _ (if ?b then _ else _) => destruct b
  | |- index_safe _ _ (match ?x with _ => _ end) => destruct x
  | |- index_safe _ _ _ => progress unfold_ops
  end.

Ltac kinv_step :=
  match goal with
  | |- keeps_inv _ _ (bind _ _) => apply kinv_bind; intros
  | |- keeps_inv _ _ (when _ _) => apply kinv_when
  | |- keeps_inv _ _ (for_ _ _) => apply kinv_for_; intros
  | |- keeps_inv _ _ (try_except _ _) => apply kinv_try_except
  | |- keeps_inv _ _ (ret _) => apply kinv_ret
  | |- keeps_inv _ _ (raise _) => apply kinv_raise
  | |- keeps_inv _ _ (gets _) => apply kinv_gets
  | |- keeps_inv _ _ (modify _) => apply kinv_modify; frame_tac
  | |- keeps_inv _ _ (lift_opt _ _) => apply kinv_lift_opt
  | |- keeps_inv _ _ (clamp _) => unfold clamp
  | |- keeps_inv _ _ (zctrl_set_value _ _ _) => apply kinv_zctrl_set_value
  | |- keeps_inv _ _ (zctrl_reset_value _ _) => apply kinv_zctrl_reset_value
  | |- keeps_inv _ _ (fun _ => _) =>
      apply kinv_readonly; intros ?s; cbv beta; case_match; reflexivity
  | |- keeps_inv _ _ (if ?b then _ else _) => destruct b
  | |- keeps_inv _ _ (match ?x with _ => _ end) => destruct x
  | |- keeps_inv _ _ _ => progress unfold_ops
  end.


Lemma kinv_get_state_loop (mx : nat) (full : bool) (k : nat) (chans : list nat)
    (state : snapshot) :
  keeps_inv lib_max mx (get_state_loop full k chans state).
Proof.
  revert state. induction chans as [|c chans IH]; intros state; simpl.
  - apply kinv_ret.
  - apply kinv_bind; [|intros st; apply IH].
    apply kinv_readonly. intros s. case_match; reflexivity.
Qed.

Lemma kinv_unlearn_dict_loop (mx : nat) (ix : pyindex) (size0 : nat) (z : zref)
    (keys : list nat) :
  keeps_inv lib_max mx (unlearn_dict_loop ix size0 z keys).
Proof.
  induction keys as [|cc keys IH]; simpl; [apply kinv_ret|].
  unfold learned_cc_getitem, learned_cc_pop, learned_cc_get.
  repeat (kinv_step || apply IH).
Qed.

(** Every operation keeps the cache invariant. *)
Lemma run_op_keeps_inv (mx : nat) (o : mixer_op) :
  keeps_inv lib_max mx (run_op lib_max lib_get o).
Proof.
  destruct o; unfold_ops;
    repeat (kinv_step || apply kinv_get_state_loop || apply kinv_unlearn_dict_loop).
Qed.

Lemma kinv_get_learned_cc_loop (mx : nat) (z : zref) (chans : list nat) :
  keeps_inv lib_max mx (get_learned_cc_loop z chans).
Proof.
  induction chans as [|c chans IH]; simpl; [apply kinv_ret|].
  unfold learned_cc_get. repeat kinv_step.
  - apply IH.
Qed.

(** Every public call keeps the cache invariant. *)
Lemma run_call_keeps_inv (mx : nat) (k : mixer_call) :
  keeps_inv lib_max mx (run_call lib_max lib_get k).
Proof.
  destruct k as [o| | | | | | | | | | | | | | |];
    [apply run_op_keeps_inv| ..];
    unfold run_call, get_level, get_balance, get_mute, get_phase, get_dpm, get_dpm_hold,
      get_learned_cc, is_channel_routed, enable_dpm, set_midi_learn_cb, midi_unlearn_chan;
    repeat (kinv_step || apply kinv_get_learned_cc_loop).
Qed.

(** The channel operations never index the cache out of range. *)
Lemma run_op_index_safe (mx : nat) (o : mixer_op) (c : nat) :
  op_chan o = Some c -> index_safe lib_max mx (run_op lib_max lib_get o).
Proof.
  destruct o; simpl; intros Ho; try discriminate; unfold_ops; repeat isafe_step.
Qed.

Lemma clamp_over {T} (c : nat) (s : mixer) (k : nat -> M T) :
  m_max s <= c -> bind (clamp c) k s = k (m_max s) s.
Proof.
  intros Hc. unfold bind, clamp, gets, ret. simpl.
  destruct (Nat.leb_spec (m_max s) c); [reflexivity|lia].
Qed.

Lemma clamp_over2 {T U} (c : nat) (s : mixer) (f : nat -> M T) (k : T -> M U) :
  m_max s <= c -> bind (bind (clamp c) f) k s = bind (f (m_max s)) k s.
Proof.
  intros Hc. unfold bind, clamp, gets, ret. simpl.
  destruct (Nat.leb_spec (m_max s) c); [reflexivity|lia].
Qed.

(** C8: a mixer built with the library loaded has [MAX_NUM_CHANNELS + 1]
    cached strips; every public operation keeps that invariant; the
    operations that take a channel never raise IndexError on the cache,
    and a channel at or above [MAX_NUM_CHANNELS] acts exactly as the
    main-bus channel [MAX_NUM_CHANNELS]. *)
Theorem mixer_cache_invariant :
  (forall pcb, exists s, zynmixer_init lib_max lib_get true pcb = (inr tt, s) /\
                         mixer_inv lib_max s) /\
  (forall o s, mixer_inv lib_max s ->
     mixer_inv lib_max (snd (run_op lib_max lib_get o s)) /\
     m_max (snd (run_op lib_max lib_get o s)) = m_max s) /\
  (forall o c s, op_chan o = Some c -> mixer_inv lib_max s ->
     fst (run_op lib_max lib_get o s) <> inl IndexError /\
     (m_max s <= c ->
      run_op lib_max lib_get o s = run_op lib_max lib_get (op_with_chan o (m_max s)) s)).
Proof.
  split.
  { intros pcb. destruct (init_true_run pcb) as (s & H1 & _ & H2). eauto. }
  split.
  { intros o s Hi. apply (run_op_keeps_inv (m_max s) o s Hi eq_refl). }
  intros o c s Ho Hi. split.
  - apply (proj2 (run_op_index_safe (m_max s) o c Ho) s Hi eq_refl).
  - intros Hc. destruct o; simpl in Ho; try discriminate; injection Ho as <-;
      unfold run_op, op_with_chan, set_level, set_balance, set_solo, set_mono, set_phase,
        toggle_mute, toggle_solo, toggle_mono, toggle_phase, reset, set_mute;
      cbv beta iota;
      first [ rewrite !clamp_over2 by lia | rewrite !clamp_over by lia ];
      reflexivity.
Qed.

(** *** Snapshot keys *)

Lemma pretty_N_go_head (x : N) (s : string) :
  (0 < x)%N -> exists ch r, pretty_N_go x s = String ch r /\ ch <> "0"%char.
Proof.
  revert s. induction (N.lt_wf_0 x) as [x _ IH]; intros s Hx.
  rewrite pretty_N_go_step by exact Hx.
  destruct (decide (x < 10)%N) as [Hlt|Hge].
  - rewrite N.div_small by exact Hlt. rewrite pretty_N_go_0.
    rewrite N.mod_small by exact Hlt.
    eexists _, _. split; [reflexivity|].
    assert (x = 1 \/ x = 2 \/ x = 3 \/ x = 4 \/ x = 5 \/ x = 6 \/ x = 7 \/ x = 8 \/ x = 9)%N
      as Hcases by lia.
    destruct Hcases as [->|[->|[->|[->|[->|[->|[->|[->| ->]]]]]]]]; discriminate.
  - apply IH.
    + apply N.div_lt; lia.
    + apply N.div_str_pos. lia.
Qed.

Lemma pretty_nat_head (n : nat) :
  0 < n -> exists ch r, pretty n = String ch r /\ ch <> "0"%char.
Proof.
  intros Hn. unfold pretty, pretty_nat, pretty, pretty_N.
  rewrite decide_False by lia.
  apply pretty_N_go_head. lia.
Qed.

Lemma pad2_inj (a b : nat) : pad2 a = pad2 b -> a = b.
Proof.
  unfold pad2.
  destruct (Nat.ltb_spec a 10) as [Ha|Ha], (Nat.ltb_spec b 10) as [Hb|Hb]; intros Heq.
  - cbv [String.append] in Heq. injection Heq as H0. apply (inj pretty), H0.
  - cbv [String.append] in Heq.
    destruct (pretty_nat_head b) as (ch & r & Hpb & Hch); [lia|].
    rewrite Hpb in Heq. injection Heq as H1 _. congruence.
  - cbv [String.append] in Heq.
    destruct (pretty_nat_head a) as (ch & r & Hpa & Hch); [lia|].
    rewrite Hpa in Heq. injection Heq as H1 _. congruence.
  - apply (inj pretty), Heq.
Qed.

(** The keys of the strips [0..mx] are pairwise distinct. *)
Lemma chan_key_inj (mx a b : nat) :
  a <= mx -> b <= mx -> chan_key mx a = chan_key mx b -> a = b.
Proof.
  unfold chan_key. intros Ha Hb.
  destruct (Nat.ltb_spec a mx) as [Ha'|Ha'], (Nat.ltb_spec b mx) as [Hb'|Hb']; cbv [String.append]; intros Heq.
  - injection Heq as H0. apply pad2_inj, H0.
  - discriminate.
  - discriminate.
  - lia.
Qed.

(** *** [get_state(full=True)] *)

Lemma strip_state_lookup (st : strip) (y : symbol) :
  strip_state true st !! symbol_name y = Some {[ "value" := zc_value (strip_get st y) ]}.
Proof.
  unfold strip_state, zctrl_get_state, symbols. simpl.
  rewrite !decide_False by apply map_non_empty_singleton.
  destruct y; simpl; simplify_map_eq; reflexivity.
Qed.

Lemma strip_state_ne (st : strip) : strip_state true st <> ∅.
Proof.
  intros H. pose proof (strip_state_lookup st Level) as Hl.
  rewrite H, lookup_empty in Hl. discriminate.
Qed.

Lemma get_state_loop_cons (mx c : nat) (rest : list nat) (state : snapshot) (s : mixer) :
  get_state_loop true mx (c :: rest) state s =
  match m_zctrls s !! c with
  | Some st => get_state_loop true mx rest (<[chan_key mx c := strip_state true st]> state) s
  | None => (inl IndexError, s)
  end.
Proof.
  simpl. unfold bind. destruct (m_zctrls s !! c) as [st|]; [|reflexivity].
  rewrite decide_False by apply strip_state_ne. reflexivity.
Qed.

Lemma get_state_loop_run (mx : nat) (chans : list nat) (state : snapshot) (s : mixer) :
  (forall c, c ∈ chans -> c < length (m_zctrls s)) ->
  exists snap, get_state_loop true mx chans state s = (inr snap, s) /\
    (forall k, (forall c, c ∈ chans -> chan_key mx c <> k) -> snap !! k = state !! k) /\
    (forall c st, c ∈ chans ->
       (forall c', c' ∈ chans -> chan_key mx c' = chan_key mx c -> c' = c) ->
       m_zctrls s !! c = Some st -> snap !! chan_key mx c = Some (strip_state true st)).
Proof.
  revert state. induction chans as [|c0 rest IH]; intros state Hb.
  - exists state. split; [reflexivity|]. split; [reflexivity|].
    intros c st Hc. apply elem_of_nil in Hc. contradiction.
  - destruct (lookup_lt_is_Some_2 (m_zctrls s) c0) as [st0 Hst0];
      [apply Hb; left|].
    rewrite get_state_loop_cons, Hst0.
    destruct (IH (<[chan_key mx c0 := strip_state true st0]> state))
      as (snap & Hrun & Hframe & Hval); [intros c Hc; apply Hb; right; exact Hc|].
    exists snap. split; [exact Hrun|]. split.
    + intros k Hk. rewrite Hframe.
      * apply lookup_insert_ne. apply Hk. left.
      * intros c Hc. apply Hk. right. exact Hc.
    + intros c st Hc Hinj Hst.
      destruct (decide (c ∈ rest)) as [Hin|Hnin].
      * apply Hval; [exact Hin| |exact Hst].
        intros c' Hc'. apply Hinj. right. exact Hc'.
      * apply elem_of_cons in Hc as [->|Hc]; [|contradiction].
        rewrite Hframe.
        -- rewrite Hst0 in Hst. injection Hst as <-. apply lookup_insert_eq.
        -- intros c' Hc' Heq. apply Hnin.
           rewrite <- (Hinj c' (proj2 (elem_of_cons _ _ _) (or_intror Hc')) Heq). exact Hc'.
Qed.

Lemma get_state_run (s : mixer) :
  mixer_inv lib_max s -> m_lib s = true ->
  exists snap, get_state lib_max true s = (inr snap, s) /\
    forall c st, m_zctrls s !! c = Some st ->
                 snap !! chan_key lib_max c = Some (strip_state true st).
Proof.
  intros [Hlen Hmx] Hl. specialize (Hmx Hl).
  destruct (get_state_loop_run lib_max (seq 0 (lib_max + 1)) ∅ s)
    as (snap & Hrun & _ & Hval).
  { intros c Hc. apply elem_of_seq in Hc. lia. }
  exists snap. split.
  - unfold get_state. erewrite bind_inr; [exact Hrun|].
    unfold get_max_channels. erewrite bind_inr by reflexivity. rewrite Hl. reflexivity.
  - intros c st Hst.
    assert (Hc : c < lib_max + 1)
      by (rewrite <- Hmx, <- Hlen; apply lookup_lt_is_Some_1; rewrite Hst; eauto).
    apply Hval; [apply elem_of_seq; lia| |exact Hst].
    intros c' Hc' Heq. apply elem_of_seq in Hc'.
    apply (chan_key_inj lib_max); [lia|lia|exact Heq].
Qed.

(** *** [set_state(state, full=True)] *)

Lemma setter_noupdate (y : symbol) (c : nat) (v : pyval) (s : mixer) :
  m_zctrls (snd (setter y c v false s)) = m_zctrls s /\
  m_lib (snd (setter y c v false s)) = m_lib s.
Proof.
  destruct s as [lib mx zs lc lz lcb pcb lg].
  destruct y; unfold setter, set_level, set_balance, set_mute, set_solo, set_mono,
    set_phase, clamp, lib_call, send_update, bind, gets, modify, ret, when, raise;
    cbn -[marshal_error]; destruct lib; cbn -[marshal_error];
    try destruct (marshal_error _); destruct pcb; split; reflexivity.
Qed.

Lemma send_controller_value_run (c : nat) (y : symbol) (s : mixer) :
  exists s', send_controller_value c y s = (inr tt, s') /\
             m_zctrls s' = m_zctrls s /\ m_lib s' = m_lib s.
Proof.
  unfold send_controller_value, try_except.
  destruct (cache_value s c y) as [v|] eqn:Hv.
  - destruct (setter_noupdate y c v s) as [Hz Hl].
    erewrite bind_inr by (rewrite Hv; reflexivity).
    destruct (setter y c v false s) as [[e|[]] s'] eqn:Hrun; simpl in Hz, Hl.
    + eexists. split; [reflexivity|]. split; assumption.
    + exists s'. auto.
  - erewrite bind_inl by (rewrite Hv; reflexivity).
    eexists. split; [reflexivity|]. split; reflexivity.
Qed.

(** One controller of [set_state]: it gets back the value the snapshot
    holds for it, and the library stays loaded. *)
Lemma set_state_step (snap : snapshot) (key : string) (chan : nat) (y : symbol)
    (h : M unit) (v : pyval) (st : strip) (s : mixer) :
  snap !! key ≫= (λ d, d !! symbol_name y) = Some {[ "value" := v ]} ->
  m_zctrls s !! chan = Some st ->
  exists s', try_except (set_state_ctrl snap key chan y) h s = (inr tt, s') /\
    m_zctrls s' = <[chan := strip_set st y (mkZctrl v (zc_default (strip_get st y)))]>
                    (m_zctrls s) /\
    m_lib s' = m_lib s.
Proof.
  intros Hlk Hst.
  set (s1 := set_zctrls (<[chan := strip_set st y (mkZctrl v (zc_default (strip_get st y)))]>
                           (m_zctrls s)) s).
  destruct (send_controller_value_run chan y s1) as (s2 & Hsend & Hz & Hl).
  exists s2.
  assert (Hrun : set_state_ctrl snap key chan y s = (inr tt, s2)).
  { unfold set_state_ctrl.
    rewrite (bind_inr _ _ s {[ "value" := v ]} s) by (unfold lift_opt; rewrite Hlk; reflexivity).
    cbv beta.
    assert (H1 : ({[ "value" := v ]} : ctrl_state) !! "value" = Some v)
      by apply lookup_singleton_eq.
    assert (H2 : forall k, k <> "value" -> ({[ "value" := v ]} : ctrl_state) !! k = None)
      by (intros k Hk; apply lookup_singleton_ne; congruence).
    rewrite H1, !H2 by discriminate.
    unfold zctrl_set_value_send.
    erewrite bind_inr; [reflexivity|].
    erewrite bind_inr; [exact Hsend|].
    unfold zctrl_set_value. rewrite Hst. reflexivity. }
  unfold try_except. rewrite Hrun.
  split; [reflexivity|]. split; [exact Hz|exact Hl].
Qed.

Lemma cache_value_insert (s s1 : mixer) (chan : nat) (st : strip) (y : symbol) (z : zctrl)
    (c : nat) (y' : symbol) :
  m_zctrls s1 = <[chan := strip_set st y z]> (m_zctrls s) -> m_zctrls s !! chan = Some st ->
  cache_value s1 c y' =
  if decide ((c, y') = (chan, y)) then Some (zc_value z) else cache_value s c y'.
Proof.
  intros Hz Hst. unfold cache_value, cache_get. rewrite Hz.
  rewrite (strip_lookup_insert _ _ _ _ _ _ _ Hst).
  destruct (decide ((c, y') = (chan, y))); reflexivity.
Qed.

Lemma cache_value_out (s : mixer) (c : nat) (y : symbol) :
  length (m_zctrls s) <= c -> cache_value s c y = None.
Proof.
  intros Hc. unfold cache_value, cache_get.
  rewrite lookup_ge_None_2 by exact Hc. reflexivity.
Qed.

Lemma elem_of_symbols (y : symbol) : y ∈ symbols.
Proof. apply list_elem_of_In. destruct y; simpl; tauto. Qed.

Section SetState.
Variables (s0 : mixer) (snap : snapshot) (full : bool).
Hypothesis Hsnap : forall c st, m_zctrls s0 !! c = Some st ->
                   snap !! chan_key lib_max c = Some (strip_state true st).

Lemma set_state_syms (chan : nat) (st0 : strip) (ys : list symbol) :
  m_zctrls s0 !! chan = Some st0 ->
  forall (D : nat -> symbol -> Prop) (s : mixer),
  m_lib s = true -> length (m_zctrls s) = length (m_zctrls s0) ->
  (forall c y, D c y -> cache_value s c y = cache_value s0 c y) ->
  exists s', for_ ys (λ y, try_except (set_state_ctrl snap (chan_key lib_max chan) chan y)
                                      (when full (zctrl_reset_value chan y))) s = (inr tt, s') /\
    m_lib s' = true /\ length (m_zctrls s') = length (m_zctrls s0) /\
    (forall c y, D c y \/ (c = chan /\ y ∈ ys) -> cache_value s' c y = cache_value s0 c y).
Proof.
  intros Hst0. induction ys as [|y ys IH]; intros D s Hl Hlen HD.
  - exists s. split; [reflexivity|]. split; [exact Hl|]. split; [exact Hlen|].
    intros c y [Hc|[_ Hy]]; [apply HD, Hc|apply elem_of_nil in Hy; contradiction].
  - destruct (lookup_lt_is_Some_2 (m_zctrls s) chan) as [st Hst].
    { rewrite Hlen. apply lookup_lt_is_Some_1. rewrite Hst0. eauto. }
    destruct (set_state_step snap (chan_key lib_max chan) chan y
                (when full (zctrl_reset_value chan y)) (zc_value (strip_get st0 y)) st s)
      as (s1 & Hrun & Hz & Hl1).
    { rewrite (Hsnap chan st0 Hst0). simpl. apply strip_state_lookup. }
    { exact Hst. }
    destruct (IH (λ c y', D c y' \/ (c = chan /\ y' = y)) s1) as (s' & Hrun' & Hl' & Hlen' & HD').
    + rewrite Hl1. exact Hl.
    + rewrite Hz, length_insert. exact Hlen.
    + intros c y' Hc. rewrite (cache_value_insert s s1 chan st y _ c y' Hz Hst).
      destruct (decide ((c, y') = (chan, y))) as [Heq|Hne].
      * injection Heq as -> ->. simpl.
        unfold cache_value, cache_get. rewrite Hst0. reflexivity.
      * destruct Hc as [Hc|[-> ->]]; [apply HD, Hc|contradiction].
    + exists s'. rewrite for_cons. erewrite bind_inr by exact Hrun.
      split; [exact Hrun'|]. split; [exact Hl'|]. split; [exact Hlen'|].
      intros c y' Hc. apply HD'.
      destruct Hc as [Hc|[-> Hy']]; [left; left; exact Hc|].
      apply elem_of_cons in Hy' as [->|Hy']; [left; right; split; reflexivity|].
      right. split; [reflexivity|exact Hy'].
Qed.

Lemma set_state_chans (chans : list nat) :
  (forall c, c ∈ chans -> c < length (m_zctrls s0)) ->
  forall (D : nat -> symbol -> Prop) (s : mixer),
  m_lib s = true -> length (m_zctrls s) = length (m_zctrls s0) ->
  (forall c y, D c y -> cache_value s c y = cache_value s0 c y) ->
  exists s', for_ chans (λ chan,
                mx <- get_max_channels lib_max ;;
                for_ symbols (λ y, try_except (set_state_ctrl snap (chan_key mx chan) chan y)
                                              (when full (zctrl_reset_value chan y)))) s
             = (inr tt, s') /\
    m_lib s' = true /\ length (m_zctrls s') = length (m_zctrls s0) /\
    (forall c y, D c y \/ c ∈ chans -> cache_value s' c y = cache_value s0 c y).
Proof.
  intros Hb. induction chans as [|chan rest IH]; intros D s Hl Hlen HD.
  - exists s. split; [reflexivity|]. split; [exact Hl|]. split; [exact Hlen|].
    intros c y [Hc|Hc]; [apply HD, Hc|apply elem_of_nil in Hc; contradiction].
  - destruct (lookup_lt_is_Some_2 (m_zctrls s0) chan) as [st0 Hst0]; [apply Hb; left|].
    destruct (set_state_syms chan st0 symbols Hst0 D s Hl Hlen HD)
      as (s1 & Hrun & Hl1 & Hlen1 & HD1).
    assert (Hb' : forall c, c ∈ rest -> c < length (m_zctrls s0))
      by (intros c Hc; apply Hb; right; exact Hc).
    destruct (IH Hb' (λ c y, D c y \/ (c = chan /\ y ∈ symbols)) s1 Hl1 Hlen1 HD1)
      as (s' & Hrun' & Hl' & Hlen' & HD').
    assert (Hgm : get_max_channels lib_max s = (inr lib_max, s)).
    { unfold get_max_channels. erewrite bind_inr by reflexivity. rewrite Hl. reflexivity. }
    exists s'. split.
    { rewrite for_cons. erewrite bind_inr; [exact Hrun'|].
      rewrite (bind_inr _ _ _ _ _ Hgm). exact Hrun. }
    split; [exact Hl'|]. split; [exact Hlen'|].
    intros c y Hc. apply HD'.
    destruct Hc as [Hc|Hc]; [left; left; exact Hc|].
    apply elem_of_cons in Hc as [->|Hc]; [left; right; split; [reflexivity|apply elem_of_symbols]|].
    right. exact Hc.
Qed.

End SetState.

(** While the library is loaded, [get_state(full=True)] reports every
    strip under its key ('chan_NN' or 'main') and [set_state] of that
    snapshot with [full=True], applied to any later state with the library
    loaded and the same number of strips, ends normally and gives every
    cached strip controller back the value it had when the snapshot was
    taken. *)
Lemma snapshot_round_trip_loaded (s : mixer) :
  mixer_inv lib_max s -> m_lib s = true ->
  exists snap, get_state lib_max true s = (inr snap, s) /\
    forall s1, m_lib s1 = true -> length (m_zctrls s1) = length (m_zctrls s) ->
      fst (set_state lib_max snap true s1) = inr tt /\
      forall c y, cache_value (snd (set_state lib_max snap true s1)) c y = cache_value s c y.
Proof.
  intros Hi Hl.
  destruct (get_state_run s Hi Hl) as (snap & Hget & Hsnap).
  exists snap. split; [exact Hget|].
  intros s1 Hl1 Hlen1.
  destruct (set_state_chans s snap true Hsnap (seq 0 (length (m_zctrls s1))))
    with (D := λ (_ : nat) (_ : symbol), False) (s := s1) as (s' & Hrun & _ & Hlen' & Hval).
  { intros c Hc. apply elem_of_seq in Hc. lia. }
  { exact Hl1. }
  { exact Hlen1. }
  { intros c y []. }
  assert (Hset : set_state lib_max snap true s1 = (inr tt, s')).
  { unfold set_state. erewrite bind_inr by reflexivity. exact Hrun. }
  rewrite Hset. split; [reflexivity|].
  intros c y. simpl.
  destruct (decide (c < length (m_zctrls s))) as [Hc|Hc].
  - apply Hval. right. apply elem_of_seq. lia.
  - rewrite !cache_value_out by lia. reflexivity.
Qed.

End ZynmixerProofs.


(* ------------------------------------------------------------------ *)
(** ** Control screen: XY-select *)

Section XYSelectProofs.
Context {C : Type} `{EqDecision C}.
Implicit Types (st : @xystate C) (z : option C).

Lemma set_xyselect_controllers_ok st :
  xy_x st <> xy_y st -> xy_ok (set_xyselect_controllers st).
Proof. intros H. split; [exact H|reflexivity]. Qed.

Lemma set_xyselect_x_ok i st b st' :
  xy_ok st -> set_xyselect_x i st = Some (b, st') -> xy_ok st'.
Proof.
  intros Hok. unfold set_xyselect_x.
  destruct (xy_ctrls st !! i) as [zc|]; [|discriminate].
  destruct (bool_decide (xy_x st <> zc)) eqn:E1, (bool_decide (xy_y st <> zc)) eqn:E2;
    simpl; intros [= <- <-]; try exact Hok.
  apply bool_decide_eq_true in E2.
  apply set_xyselect_controllers_ok. simpl. congruence.
Qed.

Lemma set_xyselect_y_ok i st b st' :
  xy_ok st -> set_xyselect_y i st = Some (b, st') -> xy_ok st'.
Proof.
  intros Hok. unfold set_xyselect_y.
  destruct (xy_ctrls st !! i) as [zc|]; [|discriminate].
  destruct (bool_decide (xy_y st <> zc)) eqn:E1, (bool_decide (xy_x st <> zc)) eqn:E2;
    simpl; intros [= <- <-]; try exact Hok.
  apply bool_decide_eq_true in E2.
  apply set_xyselect_controllers_ok. simpl. congruence.
Qed.

Lemma xy_ok_counter n st : xy_ok st -> xy_ok (xy_set_counter n st).
Proof. intros H. exact H. Qed.

Lemma xy_ok_last z st : xy_ok st -> xy_ok (xy_set_last z st).
Proof. intros H. exact H. Qed.

Lemma xy_ok_axis a st : xy_ok st -> xy_ok (xy_set_axis a st).
Proof. intros H. exact H. Qed.

Lemma zynpot_read_xyselect_ok i st st' :
  xy_ok st -> zynpot_read_xyselect i st = Some st' -> xy_ok st'.
Proof.
  intros Hok. unfold zynpot_read_xyselect.
  destruct (xy_ctrls st !! i) as [zc|]; [|discriminate].
  set (st1 := if bool_decide (zc = xy_last st) then xy_set_counter (S (xy_counter st)) st
              else xy_set_counter 0 (xy_set_last zc st)).
  assert (H1 : xy_ok st1)
    by (unfold st1; case_bool_decide; [apply xy_ok_counter|apply xy_ok_counter, xy_ok_last]; exact Hok).
  destruct (Nat.ltb 5 (xy_counter st1)); [|intros [= <-]; exact H1].
  destruct (String.eqb (xy_axis st1) "X").
  - destruct (set_xyselect_x i st1) as [[[|] st2]|] eqn:E; try discriminate;
      intros [= <-]; [apply xy_ok_counter, xy_ok_axis|];
      exact (set_xyselect_x_ok _ _ _ _ H1 E).
  - destruct (String.eqb (xy_axis st1) "Y"); [|intros [= <-]; exact H1].
    destruct (set_xyselect_y i st1) as [[[|] st2]|] eqn:E; try discriminate;
      intros [= <-]; [apply xy_ok_counter, xy_ok_axis|];
      exact (set_xyselect_y_ok _ _ _ _ H1 E).
Qed.

(** X1: pot readings in XY-select mode keep the X and Y controllers two
    different controllers (or None and a controller), and keep the
    highlight on exactly the GUI controllers that show one of them. *)
Theorem zynpot_reads_keep_xy (is : list nat) st st' :
  xy_ok st -> zynpot_reads is st = Some st' -> xy_ok st'.
Proof.
  revert st. induction is as [|i is IH]; intros st Hok; simpl.
  - intros [= <-]. exact Hok.
  - destruct (zynpot_read_xyselect i st) as [st1|] eqn:E; [|discriminate].
    apply IH. exact (zynpot_read_xyselect_ok i st st1 Hok E).
Qed.

Lemma zynpot_read_quiet i st st' :
  xy_counter st < 5 -> zynpot_read_xyselect i st = Some st' ->
  xy_x st' = xy_x st /\ xy_y st' = xy_y st /\ xy_axis st' = xy_axis st /\
  xy_counter st' <= S (xy_counter st).
Proof.
  intros Hc. unfold zynpot_read_xyselect.
  destruct (xy_ctrls st !! i) as [zc|]; [|discriminate].
  case_bool_decide; simpl;
    (destruct (Nat.ltb_spec 5 (S (xy_counter st))) as [Hlt|_] || destruct (Nat.ltb_spec 5 0));
    try lia; intros [= <-]; simpl; repeat split; lia.
Qed.

(** X2: as long as the change counter plus the number of readings stays
    at most 5, the readings change neither the X nor the Y controller nor
    the axis being assigned; right after [set_xyselect_mode] (counter 0),
    the first five readings never do. *)
Theorem zynpot_reads_need_six (is : list nat) st st' :
  xy_counter st + length is <= 5 -> zynpot_reads is st = Some st' ->
  xy_x st' = xy_x st /\ xy_y st' = xy_y st /\ xy_axis st' = xy_axis st.
Proof.
  revert st. induction is as [|i is IH]; intros st Hlen; simpl.
  - intros [= <-]. auto.
  - destruct (zynpot_read_xyselect i st) as [st1|] eqn:E; [|discriminate].
    simpl in Hlen.
    destruct (zynpot_read_quiet i st st1 ltac:(lia) E) as (Hx & Hy & Ha & Hc).
    intros Hr. destruct (IH st1 ltac:(lia) Hr) as (Hx' & Hy' & Ha').
    rewrite Hx', Hy', Ha'. auto.
Qed.

End XYSelectProofs.

Section XYSelectProofs3.
Context {C : Type} `{EqDecision C}.
Implicit Types (st : @xystate C) (z : option C).

Lemma zynpot_read_same i z st :
  xy_ctrls st !! i = Some z -> xy_last st = z -> xy_counter st < 5 ->
  zynpot_read_xyselect i st = Some (xy_set_counter (S (xy_counter st)) st).
Proof.
  intros Hi Hl Hc. unfold zynpot_read_xyselect. rewrite Hi.
  rewrite bool_decide_true by congruence. simpl.
  destruct (Nat.ltb_spec 5 (S (xy_counter st))); [lia|reflexivity].
Qed.

(** X3: reading the same GUI controller seven times in a row, when its
    controller [z] is neither X nor Y nor the last one read, assigns [z]
    to the axis being selected and switches to the other axis; six
    readings are not enough. *)
Theorem zynpot_reads_assign (i : nat) z st :
  xy_ctrls st !! i = Some z -> z <> xy_x st -> z <> xy_y st -> z <> xy_last st ->
  xy_axis st = "X" \/ xy_axis st = "Y" ->
  (exists st6, zynpot_reads (repeat i 6) st = Some st6 /\
     xy_x st6 = xy_x st /\ xy_y st6 = xy_y st /\ xy_axis st6 = xy_axis st) /\
  (exists st7, zynpot_reads (repeat i 7) st = Some st7 /\ xy_counter st7 = 0 /\
     if String.eqb (xy_axis st) "X"
     then xy_x st7 = z /\ xy_y st7 = xy_y st /\ xy_axis st7 = "Y"
     else xy_y st7 = z /\ xy_x st7 = xy_x st /\ xy_axis st7 = "X").
Proof.
  intros Hi Hx Hy Hl Ha.
  set (s1 := xy_set_counter 0 (xy_set_last z st)).
  assert (E1 : zynpot_read_xyselect i st = Some s1).
  { unfold zynpot_read_xyselect. rewrite Hi. rewrite bool_decide_false by exact Hl.
    reflexivity. }
  assert (Hs : forall n, n < 5 ->
            zynpot_read_xyselect i (xy_set_counter n s1) = Some (xy_set_counter (S n) s1)).
  { intros n Hn. erewrite (zynpot_read_same i z); [reflexivity|exact Hi|reflexivity|exact Hn]. }
  assert (E6 : zynpot_reads (repeat i 6) st = Some (xy_set_counter 5 s1)).
  { simpl. rewrite E1.
    rewrite (Hs 0 ltac:(lia) : zynpot_read_xyselect i s1 = _).
    rewrite (Hs 1 ltac:(lia)), (Hs 2 ltac:(lia)), (Hs 3 ltac:(lia)), (Hs 4 ltac:(lia)).
    reflexivity. }
  split.
  { exists (xy_set_counter 5 s1). split; [exact E6|]. auto. }
  assert (E7 : zynpot_read_xyselect i (xy_set_counter 5 s1) =
    Some (if String.eqb (xy_axis st) "X"
          then xy_set_counter 0 (xy_set_axis "Y"
                 (set_xyselect_controllers (xy_set_x z (xy_set_counter 6 s1))))
          else xy_set_counter 0 (xy_set_axis "X"
                 (set_xyselect_controllers (xy_set_y z (xy_set_counter 6 s1)))))).
  { unfold zynpot_read_xyselect. simpl xy_ctrls. rewrite Hi.
    rewrite bool_decide_true by reflexivity. simpl.
    unfold set_xyselect_x, set_xyselect_y. simpl. rewrite Hi.
    rewrite !bool_decide_true by congruence. simpl.
    destruct Ha as [-> | ->]; reflexivity. }
  eexists. split.
  { change (repeat i 7) with (repeat i 6 ++ [i])%list.
    assert (Happ : forall l1 l2 (s : @xystate C), zynpot_reads (l1 ++ l2)%list s =
              match zynpot_reads l1 s with Some s' => zynpot_reads l2 s' | None => None end).
    { induction l1 as [|j l1 IH]; intros l2 s; simpl; [reflexivity|].
      destruct (zynpot_read_xyselect j s); [apply IH|reflexivity]. }
    rewrite Happ, E6. simpl. rewrite E7. reflexivity. }
  destruct Ha as [-> | ->]; simpl; auto.
Qed.

End XYSelectProofs3.

(* ------------------------------------------------------------------ *)
(** ** zynmixer: the other methods *)

Section Preserves.
Context (P : mixer -> mixer -> Prop) `{!PreOrder P}.

Lemma pres_readonly {T} (m : M T) : (forall s, snd (m s) = s) -> preserves P m.
Proof. intros H s. rewrite H. reflexivity. Qed.

Lemma pres_ret {T} (a : T) : preserves P (ret a).
Proof. apply pres_readonly. reflexivity. Qed.

Lemma pres_raise {T} (e : exc) : preserves P (@raise T e).
Proof. apply pres_readonly. reflexivity. Qed.

Lemma pres_gets {T} (f : mixer -> T) : preserves P (gets f).
Proof. apply pres_readonly. reflexivity. Qed.

Lemma pres_lift_opt {T} (e : exc) (o : option T) : preserves P (lift_opt e o).
Proof. destruct o; [apply pres_ret|apply pres_raise]. Qed.

Lemma pres_modify (f : mixer -> mixer) : (forall s, P s (f s)) -> preserves P (modify f).
Proof. intros H s. apply H. Qed.

Lemma pres_bind {T U} (m : M T) (k : T -> M U) :
  preserves P m -> (forall a, preserves P (k a)) -> preserves P (bind m k).
Proof.
  intros Hm Hk s. specialize (Hm s). unfold bind.
  destruct (m s) as [[e|a] s']; simpl in *; [exact Hm|].
  etransitivity; [exact Hm|apply Hk].
Qed.

Lemma pres_try_except (m h : M unit) :
  preserves P m -> preserves P h -> preserves P (try_except m h).
Proof.
  intros Hm Hh s. specialize (Hm s). unfold try_except.
  destruct (m s) as [[e|a] s']; simpl in *; [|exact Hm].
  etransitivity; [exact Hm|apply Hh].
Qed.

Lemma pres_when (b : bool) (m : M unit) : preserves P m -> preserves P (when b m).
Proof. destruct b; [auto|intros; apply pres_ret]. Qed.

Lemma pres_for_ {T} (l : list T) (body : T -> M unit) :
  (forall x, preserves P (body x)) -> preserves P (for_ l body).
Proof.
  intros H. induction l as [|x l IH]; [apply pres_ret|].
  rewrite for_cons. apply pres_bind; auto.
Qed.

Lemma pres_zctrl_set_value (c : nat) (y : symbol) (v : pyval) :
  (forall l s, P s (set_zctrls l s)) -> preserves P (zctrl_set_value c y v).
Proof.
  intros H s. unfold zctrl_set_value. destruct (m_zctrls s !! c); simpl; [apply H|reflexivity].
Qed.

Lemma pres_zctrl_reset_value (c : nat) (y : symbol) :
  (forall l s, P s (set_zctrls l s)) -> preserves P (zctrl_reset_value c y).
Proof.
  intros H s. unfold zctrl_reset_value. destruct (m_zctrls s !! c); simpl; [apply H|reflexivity].
Qed.

Lemma pres_get_state_loop (full : bool) (mx : nat) (chans : list nat) (state : snapshot) :
  preserves P (get_state_loop full mx chans state).
Proof.
  revert state. induction chans as [|c chans IH]; intros state; simpl; [apply pres_ret|].
  apply pres_bind; [|intros; apply IH].
  apply pres_readonly. intros s. case_match; reflexivity.
Qed.

Lemma pres_get_learned_cc_loop (z : zref) (chans : list nat) :
  preserves P (get_learned_cc_loop z chans).
Proof.
  induction chans as [|c chans IH]; simpl; [apply pres_ret|].
  apply pres_bind.
  - unfold learned_cc_get. apply pres_bind; [apply pres_gets|intros; apply pres_lift_opt].
  - intros d. destruct (dict_find d z); [apply pres_ret|apply IH].
Qed.

Lemma pres_unlearn_dict_loop (ix : pyindex) (size0 : nat) (z : zref) (keys : list nat) :
  (forall l s, P s (set_learned_cc l s)) -> preserves P (unlearn_dict_loop ix size0 z keys).
Proof.
  intros H. induction keys as [|cc keys IH]; simpl; [apply pres_ret|].
  assert (Hg : forall ix, preserves P (learned_cc_getitem ix)).
  { intros [n|d]; simpl; [|apply pres_raise].
    unfold learned_cc_get. apply pres_bind; [apply pres_gets|intros; apply pres_lift_opt]. }
  apply pres_bind; [apply Hg|intros d].
  apply pres_bind.
  - apply pres_when. destruct ix as [n|d']; simpl; [|apply pres_raise].
    unfold learned_cc_get. apply pres_bind; [apply pres_bind; [apply pres_gets|intros; apply pres_lift_opt]|].
    intros d''. apply pres_modify. intros s. apply H.
  - intros _. apply pres_bind; [apply Hg|intros d'].
    destruct (Nat.eqb (length d') size0); [apply IH|apply pres_raise].
Qed.

End Preserves.

Ltac unfold_calls :=
  unfold run_call, run_op, set_level, set_balance, set_mute, set_solo, set_mono, set_phase,
    toggle_mute, toggle_solo, toggle_mono, toggle_phase, reset, reset_state,
    get_state, set_state, set_state_ctrl, zctrl_set_value_send, send_controller_value,
    setter, set_midi_learn, midi_control_change, learned_cc_get, disable_midi_learn,
    enable_midi_learn, dispatch_cc, try_pass, midi_unlearn, learned_cc_getitem,
    learned_cc_pop, destroy, lib_query, send_update, get_solo, get_mono,
    get_max_channels, get_level, get_balance, get_mute, get_phase, get_dpm, get_dpm_hold,
    get_learned_cc, is_channel_routed, set_midi_learn_cb, midi_unlearn_chan, clamp;
  cbv zeta.

(** One step of a [preserves] proof; [tm] closes what the state updates
    must satisfy, [tl] the calls into the library. *)
Ltac pres_step tm tl :=
  match goal with
  | |- PreOrder _ => exact _
  | |- preserves _ (bind _ _) => apply pres_bind; intros
  | |- preserves _ (when _ _) => apply pres_when
  | |- preserves _ (for_ _ _) => apply pres_for_; intros
  | |- preserves _ (try_except _ _) => apply pres_try_except
  | |- preserves _ (ret _) => apply pres_ret
  | |- preserves _ (raise _) => apply pres_raise
  | |- preserves _ (gets _) => apply pres_gets
  | |- preserves _ (lift_opt _ _) => apply pres_lift_opt
  | |- preserves _ (modify _) => apply pres_modify; try (intros ?s; tm)
  | |- preserves _ (lib_call _ _) => tl
  | |- preserves _ (zctrl_set_value _ _ _) => apply pres_zctrl_set_value; try (intros ?l ?s; tm)
  | |- preserves _ (zctrl_reset_value _ _) => apply pres_zctrl_reset_value; try (intros ?l ?s; tm)
  | |- preserves _ (get_state_loop _ _ _ _) => apply pres_get_state_loop
  | |- preserves _ (get_learned_cc_loop _ _) => apply pres_get_learned_cc_loop
  | |- preserves _ (unlearn_dict_loop _ _ _ _) => apply pres_unlearn_dict_loop; try (intros ?l ?s; tm)
  | |- preserves _ (fun _ => _) => apply pres_readonly; try (intros ?s; cbv beta; case_match; reflexivity)
  | |- preserves _ (if ?b then _ else _) => destruct b
  | |- preserves _ (match ?x with _ => _ end) => destruct x
  | |- preserves _ _ => progress unfold_calls
  end.

Section MixerCalls2.
Variable lib_max : nat.
Variable lib_get : list event -> string -> list carg -> pyval.

Lemma midi_unlearn_run (z : zref) (s : mixer) :
  midi_unlearn z s = (match m_learned_cc s with [] => inr tt | _ => inl TypeError end, s).
Proof. unfold midi_unlearn, bind at 1, gets. destruct (m_learned_cc s); reflexivity. Qed.

(** X5: the [learned_cc] table changes only when a control change arrives
    while a controller waits to be learned: no other call of a public
    method of [mixer_call] ([midi_unlearn] and [midi_unlearn_chan]
    included) ever alters a binding. *)
Theorem learned_cc_only_by_learning (k : mixer_call) (s : mixer) :
  match k with CallOp (OMidiControlChange _ _ _ _) => m_learn_zctrl s = None | _ => True end ->
  m_learned_cc (snd (run_call lib_max lib_get k s)) = m_learned_cc s.
Proof.
  intros Hk.
  destruct k as [o| | | | | | | | | | | | | | |]; [destruct o| | | | | | | | | | | | | | |].
  all: try (match goal with
            | |- context [OMidiControlChange ?single ?chan ?ccnum ?val] =>
                simpl; unfold midi_control_change, bind at 1, gets; rewrite Hk;
                destruct single; [rewrite for_dispatch_run|rewrite try_dispatch_run]; reflexivity
            | |- context [OMidiUnlearn ?z] =>
                simpl; rewrite midi_unlearn_run; reflexivity
            end).
  all: match goal with
       | |- m_learned_cc (snd (?m ?s0)) = _ =>
           enough (Hp : preserves learned_same m) by apply Hp
       end; unfold_calls; try unfold enable_dpm;
    repeat (pres_step ltac:(reflexivity) ltac:(unfold lib_call; repeat (pres_step ltac:(reflexivity) idtac))).
Qed.

End MixerCalls2.

(* ------------------------------------------------------------------ *)
(** ** zynmixer: the objects a program holds *)

Section Reachable.
Variable lib_max : nat.
Variable lib_get : list event -> string -> list carg -> pyval.

Lemma destroy_lib_same : preserves lib_same destroy.
Proof. intros [[] mx zs lc lz lcb pcb lg]; reflexivity. Qed.

(** No public method sets [lib_zynmixer]: [destroy()] raises before. *)
Lemma run_call_lib_same (k : mixer_call) : preserves lib_same (run_call lib_max lib_get k).
Proof.
  destruct k as [o| | | | | | | | | | | | | | |]; [destruct o| | | | | | | | | | | | | | |];
    first [ exact destroy_lib_same
          | unfold_calls; try unfold enable_dpm;
            repeat (pres_step ltac:(reflexivity)
                      ltac:(unfold lib_call; repeat (pres_step ltac:(reflexivity) idtac))) ].
Qed.

(** A constructed object keeps its library and its cache invariant. *)
Lemma reachable_inv (s : mixer) :
  reachable lib_max lib_get s -> m_lib s = true /\ mixer_inv lib_max s.
Proof.
  induction 1 as [pcb s Hinit | k s _ [Hl Hi]].
  - destruct (init_true_run lib_max lib_get pcb) as (s' & H & Hl & Hi).
    rewrite Hinit in H. injection H as <-. split; assumption.
  - split.
    + rewrite (run_call_lib_same k s). exact Hl.
    + apply (run_call_keeps_inv lib_max lib_get (m_max s) k s Hi eq_refl).
Qed.

(** C5: on every object a program can hold, [get_state(full=True)] ends
    normally without changing anything, and [set_state] of that snapshot
    with [full=True], applied then or on any later object, ends normally
    and gives every cached strip controller (every symbol of the strips
    [0..MAX_NUM_CHANNELS], keyed 'chan_NN' and 'main') back the value it
    had when the snapshot was taken. *)
Theorem snapshot_round_trip (s : mixer) :
  reachable lib_max lib_get s ->
  exists snap, get_state lib_max true s = (inr snap, s) /\
    forall s1, reachable lib_max lib_get s1 ->
      fst (set_state lib_max snap true s1) = inr tt /\
      forall c y, cache_value (snd (set_state lib_max snap true s1)) c y = cache_value s c y.
Proof.
  intros Hr. destruct (reachable_inv s Hr) as [Hl Hi].
  destruct (snapshot_round_trip_loaded lib_max s Hi Hl) as (snap & Hget & Hset).
  exists snap. split; [exact Hget|].
  intros s1 Hr1. destruct (reachable_inv s1 Hr1) as [Hl1 [Hlen1 Hmx1]].
  apply Hset; [exact Hl1|].
  destruct Hi as [Hlen Hmx]. rewrite Hlen1, Hlen, (Hmx1 Hl1), (Hmx Hl). reflexivity.
Qed.

(** C7: if the library cannot be loaded the constructor raises
    (AttributeError on [None.getMaxChannels()]); every object a program
    can hold (constructed, then any public calls, [destroy()] included)
    has the library loaded, so its accessors always take the library
    branch and never return their library-absent values. *)
Theorem constructed_mixer_keeps_lib :
  (forall pcb, fst (zynmixer_init lib_max lib_get false pcb) = inl AttributeError) /\
  (forall s, reachable lib_max lib_get s ->
   m_lib s = true /\
   forall c leg,
     get_level lib_get c s = (inr (lib_get (m_log s) "getLevel" [CInt c]), s) /\
     get_balance lib_get c s = (inr (lib_get (m_log s) "getBalance" [CInt c]), s) /\
     get_mute lib_get c s = (inr (lib_get (m_log s) "getMute" [CInt c]), s) /\
     get_solo lib_get c s =
       (inr (PyBool (py_eqb (lib_get (m_log s) "getSolo" [CInt c]) (PyInt 1))), s) /\
     get_mono lib_get c s =
       (inr (PyBool (py_eqb (lib_get (m_log s) "getMono" [CInt c]) (PyInt 1))), s) /\
     get_phase lib_get c s = (inr (lib_get (m_log s) "getPhase" [CInt c]), s) /\
     get_dpm lib_get c leg s = (inr (lib_get (m_log s) "getDpm" [CInt c; CInt leg]), s) /\
     get_dpm_hold lib_get c leg s =
       (inr (lib_get (m_log s) "getDpmHold" [CInt c; CInt leg]), s) /\
     get_max_channels lib_max s = (inr lib_max, s)).
Proof.
  split; [intros []; reflexivity|].
  intros s Hr. destruct (reachable_inv s Hr) as [Hl _]. split; [exact Hl|].
  intros c leg. destruct s as [lib mx zs lc lz lcb pcb lg]; simpl in Hl; subst lib.
  repeat split.
Qed.

(** X4: on every object a program can hold, [destroy()] calls [end()] in
    the library and then raises AttributeError ([ctypes.dlclose] does not
    exist), changing nothing else: [lib_zynmixer] stays set, and each
    further [destroy()] calls [end()] again. *)
Theorem destroy_raises_after_end (s : mixer) :
  reachable lib_max lib_get s ->
  destroy s = (inl AttributeError, add_log [ENative "end" []] s) /\
  m_lib (add_log [ENative "end" []] s) = true /\
  destroy (add_log [ENative "end" []] s) =
    (inl AttributeError, add_log [ENative "end" []] (add_log [ENative "end" []] s)).
Proof.
  intros Hr. destruct (reachable_inv s Hr) as [Hl _].
  destruct s as [lib mx zs lc lz lcb pcb lg]; simpl in Hl; subst lib.
  split; [reflexivity|]. split; reflexivity.
Qed.

End Reachable.

Section LearnedCC.
Variable lib_max : nat.
Variable lib_get : list event -> string -> list carg -> pyval.

Lemma dict_find_key (d : ccdict) (z : zref) (cc : nat) :
  dict_find d z = Some cc -> cc ∈ map fst d.
Proof.
  induction d as [|[k z'] d IH]; simpl; [discriminate|].
  case_decide; [intros [= ->]; left|intros Hf; right; apply IH, Hf].
Qed.

Lemma dict_find_some (d : ccdict) (z : zref) (cc : nat) :
  NoDup (map fst d) -> dict_find d z = Some cc -> dict_get d cc = Some z.
Proof.
  induction d as [|[k z'] d IH]; simpl; [discriminate|].
  intros Hnd. apply NoDup_cons in Hnd as [Hk Hnd].
  case_decide as Hz.
  - intros [= ->]. rewrite Nat.eqb_refl. congruence.
  - intros Hf. destruct (Nat.eqb_spec cc k) as [->|_]; [|apply IH; assumption].
    apply dict_find_key in Hf. contradiction.
Qed.

Lemma dict_find_none (d : ccdict) (z : zref) (cc : nat) :
  dict_find d z = None -> dict_get d cc <> Some z.
Proof.
  induction d as [|[k z'] d IH]; simpl; [discriminate|].
  case_decide as Hz; [discriminate|].
  intros Hf. destruct (Nat.eqb cc k); [congruence|apply IH, Hf].
Qed.

Lemma dict_find_set (d : ccdict) (z : zref) (k : nat) :
  dict_find d z = None -> dict_find (dict_set d k z) z = Some k.
Proof.
  induction d as [|[k' z'] d IH]; simpl.
  - rewrite decide_True by reflexivity. reflexivity.
  - case_decide as Hz; [discriminate|]. intros Hf.
    destruct (Nat.eqb_spec k k') as [->|Hk]; simpl.
    + rewrite decide_True by reflexivity. reflexivity.
    + rewrite decide_False by exact Hz. apply IH, Hf.
Qed.

(** What the loop of [get_learned_cc] finds over the channels [a .. a+n-1]. *)
Lemma get_learned_cc_loop_run (z : zref) (a n : nat) (s : mixer) :
  a + n <= length (m_learned_cc s) ->
  exists r, get_learned_cc_loop z (seq a n) s = (inr r, s) /\
  match r with
  | Some l => exists ch cc d, l = [ch; cc] /\ a <= ch < a + n /\
      m_learned_cc s !! ch = Some d /\ dict_find d z = Some cc /\
      forall ch' d', a <= ch' < ch -> m_learned_cc s !! ch' = Some d' -> dict_find d' z = None
  | None => forall ch' d', a <= ch' < a + n -> m_learned_cc s !! ch' = Some d' ->
      dict_find d' z = None
  end.
Proof.
  revert a. induction n as [|n IH]; intros a Hlen.
  - exists None. split; [reflexivity|]. intros ch' d' Hc. lia.
  - destruct (lookup_lt_is_Some_2 (m_learned_cc s) a) as [d Hd]; [lia|].
    simpl. unfold learned_cc_get.
    rewrite bind_assoc. erewrite bind_inr by reflexivity. cbv beta.
    erewrite bind_inr by (rewrite Hd; reflexivity).
    destruct (dict_find d z) as [cc|] eqn:Hf.
    + eexists. split; [reflexivity|]. exists a, cc, d.
      split; [reflexivity|]. split; [lia|]. split; [exact Hd|]. split; [exact Hf|].
      intros ch' d' Hc. lia.
    + destruct (IH (S a) ltac:(lia)) as (r & Hrun & Hr).
      exists r. split; [exact Hrun|]. destruct r as [l|].
      * destruct Hr as (ch & cc & d1 & -> & Hch & Hd1 & Hf1 & Hmin).
        exists ch, cc, d1. split; [reflexivity|]. split; [lia|].
        split; [exact Hd1|]. split; [exact Hf1|].
        intros ch' d' Hc Hd'. destruct (decide (ch' = a)) as [->|Hne].
        -- rewrite Hd in Hd'. injection Hd' as <-. exact Hf.
        -- apply (Hmin ch'); [lia|exact Hd'].
      * intros ch' d' Hc Hd'. destruct (decide (ch' = a)) as [->|Hne].
        -- rewrite Hd in Hd'. injection Hd' as <-. exact Hf.
        -- apply (Hr ch'); [lia|exact Hd'].
Qed.

(** X6: on a table of 16 dicts (each with distinct keys, as Python dicts
    have), [get_learned_cc(zctrl)] changes nothing and returns
    [[chan, cc]] for a slot where [zctrl] is bound, on the lowest channel
    that binds it, or [None] when [zctrl] is bound nowhere. *)
Theorem get_learned_cc_spec (z : zref) (s : mixer) :
  length (m_learned_cc s) = 16 -> Forall (λ d, NoDup (map fst d)) (m_learned_cc s) ->
  exists r, get_learned_cc z s = (inr r, s) /\
  match r with
  | Some l => exists ch cc, l = [ch; cc] /\ bound_at s ch cc = Some z /\
      forall ch' cc', ch' < ch -> bound_at s ch' cc' <> Some z
  | None => forall ch cc, bound_at s ch cc <> Some z
  end.
Proof.
  intros Hlen Hnd.
  destruct (get_learned_cc_loop_run z 0 16 s ltac:(lia)) as (r & Hrun & Hr).
  exists r. split; [exact Hrun|].
  destruct r as [l|].
  - destruct Hr as (ch & cc & d & -> & Hch & Hd & Hf & Hmin).
    exists ch, cc. split; [reflexivity|]. split.
    + unfold bound_at. rewrite Hd. simpl. apply dict_find_some; [|exact Hf].
      exact (Forall_lookup_1 _ _ _ _ Hnd Hd).
    + intros ch' cc' Hc. unfold bound_at.
      destruct (lookup_lt_is_Some_2 (m_learned_cc s) ch') as [d' Hd']; [lia|].
      rewrite Hd'. simpl. apply dict_find_none. apply (Hmin ch'); [lia|exact Hd'].
  - intros ch cc. unfold bound_at.
    destruct (m_learned_cc s !! ch) as [d|] eqn:Hd; simpl; [|discriminate].
    apply dict_find_none. apply (Hr ch); [|exact Hd].
    apply lookup_lt_Some in Hd. lia.
Qed.

(** X7: MIDI learn then lookup: when [get_learned_cc(zctrl)] finds
    nothing, [enable_midi_learn(zctrl)] followed by a control change
    [(chan, ccnum)] makes [get_learned_cc(zctrl)] return [[chan, ccnum]]. *)
Theorem learn_then_get_learned_cc (single : bool) (z : zref) (chan ccnum val : nat) (s : mixer) :
  length (m_learned_cc s) = 16 -> chan < 16 -> fst (get_learned_cc z s) = inr None ->
  fst ((enable_midi_learn z ;;; midi_control_change single chan ccnum val ;;; get_learned_cc z) s)
  = inr (Some [chan; ccnum]).
Proof.
  intros Hlen Hch Hnone.
  destruct (get_learned_cc_loop_run z 0 16 s ltac:(lia)) as (r & Hrun & Hr).
  unfold get_learned_cc in Hnone. rewrite Hrun in Hnone. simpl in Hnone.
  injection Hnone as ->.
  destruct (lookup_lt_is_Some_2 (m_learned_cc s) chan) as [d Hd]; [lia|].
  set (s1 := set_learn_zctrl (Some z) s).
  erewrite bind_inr by reflexivity. fold s1.
  set (s2 := set_learned_cc (<[chan := dict_set d ccnum z]> (m_learned_cc s1)) s1).
  set (s3 := if m_learn_cb s2 then add_log [ELearnCb] (set_learn_zctrl None s2)
             else set_learn_zctrl None s2).
  assert (Hmcc : midi_control_change single chan ccnum val s1 = (inr tt, s3)).
  { unfold midi_control_change, disable_midi_learn, learned_cc_get, lift_opt,
      bind, gets, modify, when, ret. simpl. rewrite Hd. unfold s3, s2, s1.
    unfold set_learned_cc, set_learn_zctrl. cbn. destruct (m_learn_cb s); reflexivity. }
  erewrite bind_inr by exact Hmcc.
  assert (Hl3 : m_learned_cc s3 = <[chan := dict_set d ccnum z]> (m_learned_cc s)).
  { unfold s3. destruct (m_learn_cb s2); reflexivity. }
  assert (Hlen3 : length (m_learned_cc s3) = 16) by (rewrite Hl3, length_insert; exact Hlen).
  destruct (get_learned_cc_loop_run z 0 16 s3 ltac:(lia)) as (r3 & Hrun3 & Hr3).
  unfold get_learned_cc. rewrite Hrun3. simpl. f_equal.
  assert (Hd3 : m_learned_cc s3 !! chan = Some (dict_set d ccnum z))
    by (rewrite Hl3; apply list_lookup_insert_eq; lia).
  assert (Hf3 : dict_find (dict_set d ccnum z) z = Some ccnum)
    by (apply dict_find_set, (Hr chan); [lia|exact Hd]).
  assert (Hother : forall ch' d', ch' <> chan -> m_learned_cc s3 !! ch' = Some d' ->
                   ch' < 16 -> dict_find d' z = None).
  { intros ch' d' Hne Hd' Hc'. rewrite Hl3, list_lookup_insert_ne in Hd' by congruence.
    apply (Hr ch'); [lia|exact Hd']. }
  destruct r3 as [l|].
  - destruct Hr3 as (ch & cc & d1 & -> & Hc & Hd1 & Hf1 & Hmin).
    destruct (decide (ch = chan)) as [->|Hne].
    + rewrite Hd3 in Hd1. injection Hd1 as <-. rewrite Hf3 in Hf1. injection Hf1 as ->.
      reflexivity.
    + rewrite (Hother ch d1 Hne Hd1 ltac:(lia)) in Hf1. discriminate.
  - rewrite (Hr3 chan _ ltac:(lia) Hd3) in Hf3. discriminate.
Qed.

End LearnedCC.

(** *** [reset], [reset_state] and [set_state] with an empty snapshot *)

Section Resets.
Local Open Scope list_scope.
Variable lib_max : nat.
Variable lib_get : list event -> string -> list carg -> pyval.

Lemma py_eqb_refl (v : pyval) : py_eqb v v = true.
Proof. unfold py_eqb. destruct (py_num v); [apply Qeq_bool_refl|reflexivity]. Qed.

Lemma strip_state_reset (st : strip) : strip_state false (strip_reset st) = ∅.
Proof.
  unfold strip_state, zctrl_get_state, symbols, strip_reset. simpl.
  rewrite !py_eqb_refl. simpl. rewrite !decide_True by reflexivity. reflexivity.
Qed.

Lemma set_zctrls_twice (l l' : list strip) (s : mixer) :
  set_zctrls l (set_zctrls l' s) = set_zctrls l s.
Proof. reflexivity. Qed.

(** One [reset_value()] of the controller [y] of strip [c]. *)
Definition reset_sym (st : strip) (y : symbol) : strip :=
  strip_set st y (mkZctrl (zc_default (strip_get st y)) (zc_default (strip_get st y))).

Lemma resets_run (ys : list symbol) (c : nat) (st : strip) (s : mixer) :
  m_zctrls s !! c = Some st ->
  for_ ys (zctrl_reset_value c) s =
  (inr tt, set_zctrls (<[c := foldl reset_sym st ys]> (m_zctrls s)) s).
Proof.
  revert st s. induction ys as [|y ys IH]; intros st s Hst; simpl.
  - unfold ret. f_equal. rewrite list_insert_id by exact Hst. destruct s; reflexivity.
  - unfold bind at 1. unfold zctrl_reset_value at 1. rewrite Hst.
    rewrite (IH (reset_sym st y)).
    + rewrite set_zctrls_twice. change (m_zctrls (set_zctrls ?l ?s0)) with l.
      rewrite list_insert_insert_eq. reflexivity.
    + change (m_zctrls (set_zctrls ?l ?s0)) with l.
      apply list_lookup_insert_eq. apply lookup_lt_is_Some_1. eauto.
Qed.

Lemma strip_reset_order (st : strip) :
  foldl reset_sym st [Level; Balance; Mute; Mono; Solo; Phase] = strip_reset st /\
  foldl reset_sym st symbols = strip_reset st.
Proof. destruct st; split; reflexivity. Qed.

Lemma strip_reset_idem (st : strip) : strip_reset (strip_reset st) = strip_reset st.
Proof. destruct st; reflexivity. Qed.

(** X8: with one strip per channel plus the main bus, [reset(channel)]
    raises nothing and puts the six controllers of strip
    [min(channel, MAX_NUM_CHANNELS)] back to their defaults; nothing else
    of the object changes. *)
Theorem reset_restores_defaults (c : nat) (s : mixer) :
  length (m_zctrls s) = m_max s + 1 ->
  let c' := if Nat.leb (m_max s) c then m_max s else c in
  exists st, m_zctrls s !! c' = Some st /\
    reset c s = (inr tt, set_zctrls (<[c' := strip_reset st]> (m_zctrls s)) s).
Proof.
  intros Hlen c'.
  destruct (lookup_lt_is_Some_2 (m_zctrls s) c') as [st Hst].
  { unfold c'. destruct (Nat.leb_spec (m_max s) c); lia. }
  exists st. split; [exact Hst|].
  unfold reset, clamp. rewrite bind_assoc. erewrite bind_inr by reflexivity.
  rewrite bind_ret_l. fold c'. rewrite (resets_run _ c' st s Hst).
  rewrite (proj1 (strip_reset_order st)). reflexivity.
Qed.

(** [reset c] for a channel in range. *)
Lemma reset_in_range (c : nat) (s : mixer) (st : strip) :
  c <= m_max s -> m_zctrls s !! c = Some st ->
  reset c s = (inr tt, set_zctrls (<[c := strip_reset st]> (m_zctrls s)) s).
Proof.
  intros Hc Hst.
  unfold reset, clamp. rewrite bind_assoc. erewrite bind_inr by reflexivity.
  rewrite bind_ret_l.
  replace (if Nat.leb (m_max s) c then m_max s else c) with c
    by (destruct (Nat.leb_spec (m_max s) c); lia).
  rewrite (resets_run _ c st s Hst), (proj1 (strip_reset_order st)). reflexivity.
Qed.

(** The loop of [reset_state] over channels within range. *)
Lemma reset_loop_run (chans : list nat) (s : mixer) :
  (forall c, c ∈ chans -> c <= m_max s /\ c < length (m_zctrls s)) ->
  exists zs, for_ chans reset s = (inr tt, set_zctrls zs s) /\
    length zs = length (m_zctrls s) /\
    (forall c, c ∈ chans -> exists st, zs !! c = Some (strip_reset st)) /\
    (forall c, c ∉ chans -> zs !! c = m_zctrls s !! c).
Proof.
  revert s. induction chans as [|c rest IH]; intros s Hb.
  - exists (m_zctrls s). split; [destruct s; reflexivity|].
    split; [reflexivity|]. split; [intros c Hc; apply elem_of_nil in Hc; contradiction|].
    reflexivity.
  - destruct (Hb c ltac:(left)) as [Hcm Hcl].
    destruct (lookup_lt_is_Some_2 (m_zctrls s) c Hcl) as [st Hst].
    set (s1 := set_zctrls (<[c := strip_reset st]> (m_zctrls s)) s).
    destruct (IH s1) as (zs & Hrun & Hl & Hin & Hout).
    { intros c' Hc'. unfold s1. simpl. rewrite length_insert. apply Hb. right. exact Hc'. }
    exists zs. simpl. erewrite bind_inr by (apply reset_in_range; eauto).
    fold s1. rewrite Hrun. split; [reflexivity|].
    split; [rewrite Hl; unfold s1; simpl; apply length_insert|].
    split.
    + intros c' Hc'. destruct (decide (c' ∈ rest)) as [Hr|Hr]; [apply Hin, Hr|].
      apply elem_of_cons in Hc' as [->|Hc']; [|contradiction].
      exists st. rewrite Hout by exact Hr. unfold s1. simpl.
      apply list_lookup_insert_eq. exact Hcl.
    + intros c' Hc'. rewrite Hout by (intros H; apply Hc'; right; exact H).
      unfold s1. simpl. apply list_lookup_insert_ne.
      intros ->. apply Hc'. left.
Qed.

Lemma get_state_loop_reset (mx : nat) (chans : list nat) (s : mixer) :
  (forall c, c ∈ chans -> exists st, m_zctrls s !! c = Some (strip_reset st)) ->
  get_state_loop false mx chans ∅ s = (inr ∅, s).
Proof.
  induction chans as [|c rest IH]; intros Hb; [reflexivity|].
  destruct (Hb c ltac:(left)) as [st Hst].
  simpl. unfold bind. rewrite Hst. rewrite strip_state_reset.
  rewrite decide_True by reflexivity. apply IH.
  intros c' Hc'. apply Hb. right. exact Hc'.
Qed.

(** X9: from a consistent mixer, [reset_state()] raises nothing, and a
    following [get_state(full=False)] returns the empty snapshot: no
    controller is left off its default. *)
Theorem reset_state_then_get_state (s : mixer) :
  mixer_inv lib_max s ->
  exists s', reset_state lib_max s = (inr tt, s') /\
             get_state lib_max false s' = (inr ∅, s').
Proof.
  intros [Hlen Hmx].
  set (n := if m_lib s then lib_max else 0).
  assert (Hn : n <= m_max s).
  { unfold n. destruct (m_lib s); [rewrite Hmx by reflexivity|]; lia. }
  destruct (reset_loop_run (seq 0 (n + 1)) s) as (zs & Hrun & _ & Hin & _).
  { intros c Hc. apply elem_of_seq in Hc. lia. }
  exists (set_zctrls zs s). split.
  - unfold reset_state, get_max_channels. rewrite bind_assoc.
    erewrite bind_inr by reflexivity. rewrite bind_ret_l. exact Hrun.
  - unfold get_state, get_max_channels. rewrite bind_assoc.
    erewrite bind_inr by reflexivity. rewrite bind_ret_l.
    apply get_state_loop_reset. exact Hin.
Qed.

Lemma for_ext {T} (l : list T) (f g : T -> M unit) (s : mixer) :
  (forall x s', f x s' = g x s') -> for_ l f s = for_ l g s.
Proof.
  intros Hfg. revert s. induction l as [|x l IH]; intros s; [reflexivity|].
  simpl. unfold bind. rewrite Hfg. destruct (g x s) as [[e|[]] s']; [reflexivity|].
  apply IH.
Qed.

(** The body of [set_state(state, full)] for one controller when
    [state] has no entry for it. *)
Lemma set_state_ctrl_empty (key : string) (chan : nat) (y : symbol) (full : bool) (s : mixer) :
  try_except (set_state_ctrl ∅ key chan y) (when full (zctrl_reset_value chan y)) s =
  when full (zctrl_reset_value chan y) s.
Proof. reflexivity. Qed.

Lemma set_state_empty_loop (full : bool) (a n : nat) (zs : list strip) (s : mixer) :
  a + n <= length zs ->
  for_ (seq a n) (λ chan,
    mx <- get_max_channels lib_max ;;
    let key := chan_key mx chan in
    for_ symbols (λ y,
      try_except (set_state_ctrl ∅ key chan y) (when full (zctrl_reset_value chan y))))
    (set_zctrls zs s)
  = (inr tt, set_zctrls (if full
      then imap (λ i st, if decide (a <= i < a + n) then strip_reset st else st) zs
      else zs) s).
Proof.
  revert a zs. induction n as [|n IH]; intros a zs Hlen.
  - simpl. f_equal. destruct full; [|reflexivity]. f_equal.
    apply list_eq. intros i. rewrite list_lookup_imap.
    destruct (zs !! i); simpl; [|reflexivity]. rewrite decide_False by lia. reflexivity.
  - destruct (lookup_lt_is_Some_2 zs a) as [st Hst]; [lia|].
    cbn [seq]. rewrite for_cons.
    erewrite (bind_inr _ _ _ tt
                (set_zctrls (if full then <[a := strip_reset st]> zs else zs) s)).
    2:{ cbv beta zeta. unfold get_max_channels. rewrite bind_assoc.
        erewrite bind_inr by reflexivity. rewrite bind_ret_l.
        rewrite (for_ext _ _ (λ y, when full (zctrl_reset_value a y)))
          by (intros; apply set_state_ctrl_empty).
        destruct full.
        - rewrite (for_ext _ _ (zctrl_reset_value a)) by reflexivity.
          rewrite (resets_run symbols a st (set_zctrls zs s) Hst).
          rewrite (proj2 (strip_reset_order st)). reflexivity.
        - rewrite (for_ext _ _ (λ _, ret tt)) by reflexivity. reflexivity. }
    rewrite IH by (destruct full; [rewrite length_insert|]; lia).
    f_equal. f_equal. destruct full; [|reflexivity].
    apply list_eq. intros i. rewrite !list_lookup_imap.
    destruct (decide (i = a)) as [->|Hne].
    + rewrite list_lookup_insert_eq by lia. rewrite Hst. simpl.
      rewrite decide_False by lia. rewrite decide_True by lia. reflexivity.
    + rewrite list_lookup_insert_ne by congruence.
      destruct (zs !! i); simpl; [|reflexivity].
      repeat case_decide; first [reflexivity | lia].
Qed.

(** X10: [set_state] with an empty snapshot raises nothing; with
    [full=False] it changes nothing, with [full=True] it puts every
    controller of every strip back to its default and changes nothing
    else. *)
Theorem set_state_empty (full : bool) (s : mixer) :
  set_state lib_max ∅ full s =
  (inr tt, if full then set_zctrls (strip_reset <$> m_zctrls s) s else s).
Proof.
  unfold set_state. erewrite bind_inr by reflexivity.
  replace s with (set_zctrls (m_zctrls s) s) at 2 by (destruct s; reflexivity).
  rewrite set_state_empty_loop by lia. f_equal. destruct full.
  - simpl. f_equal. apply list_eq. intros i. rewrite list_lookup_imap, list_lookup_fmap.
    destruct (m_zctrls s !! i) eqn:Hi; simpl; [|reflexivity].
    apply lookup_lt_Some in Hi. rewrite decide_True by lia. reflexivity.
  - destruct s; reflexivity.
Qed.

End Resets.

Section Toggles.
Local Open Scope list_scope.
Variable lib_max : nat.
Variable lib_get : list event -> string -> list carg -> pyval.

(** X11: [toggle_solo(channel, update)] on a consistent cache, with
    [c' = min(channel, MAX_NUM_CHANNELS)]: with the library loaded it asks
    [getSolo(c')], calls [setSolo(c', not solo)] and caches [not solo] in
    the solo controller of strip [c'] (and nothing else); without the
    library it changes nothing. Then, with [update] (the default), it
    always raises AttributeError ([self.lib_zynmixer.get_solo] does not
    exist); without [update] it returns normally. *)
Theorem toggle_solo_flips (c : nat) (update : bool) (s : mixer) :
  length (m_zctrls s) = m_max s + 1 ->
  let c' := if Nat.leb (m_max s) c then m_max s else c in
  let solo := py_eqb (lib_get (m_log s) "getSolo" [CInt c']) (PyInt 1) in
  let r := toggle_solo lib_get c update s in
  fst r = (if update then inl AttributeError else inr tt) /\
  (m_lib s = false -> snd r = s) /\
  (m_lib s = true ->
   exists st l, m_zctrls s !! c' = Some st /\
     m_zctrls (snd r) =
       <[c' := strip_set st Solo (mkZctrl (PyBool (negb solo)) (zc_default (s_solo st)))]>
         (m_zctrls s) /\
     m_log (snd r) = m_log s ++ ENative "setSolo" [CInt c'; CPy (PyBool (negb solo))] :: l /\
     m_learned_cc (snd r) = m_learned_cc s).
Proof.
  intros Hlen c' solo r.
  destruct (lookup_lt_is_Some_2 (m_zctrls s) c') as [st Hst].
  { unfold c'. destruct (Nat.leb_spec (m_max s) c); lia. }
  assert (Hcl : (if Nat.leb (m_max s) c' then m_max s else c') = c')
    by (unfold c'; destruct (Nat.leb_spec (m_max s) c); destruct (Nat.leb_spec (m_max s) (m_max s));
        destruct (Nat.leb_spec (m_max s) c); lia).
  destruct s as [lib mx zs lc lz lcb pcb lg]; simpl in *.
  unfold r, toggle_solo, clamp, get_solo, lib_query, set_solo, lib_call, send_update,
    zctrl_set_value, bind, gets, modify, ret, when, raise; simpl.
  fold c'. fold c'. destruct lib; simpl.
  - fold solo. clearbody solo c'.
    destruct solo; simpl; rewrite Hcl, Hst; destruct pcb, update; simpl;
      (split; [reflexivity|]); (split; [discriminate|]); intros _;
      exists st; eexists; (split; [reflexivity|]); (split; [reflexivity|]);
      (split; [|reflexivity]); rewrite <- ?app_assoc; reflexivity.
  - destruct update; repeat split; discriminate.
Qed.

End Toggles.

Section MuteAndChannels.
Local Open Scope list_scope.
Variable lib_max : nat.
Variable lib_get : list event -> string -> list carg -> pyval.

Lemma get_state_loop_add_log (full : bool) (mx : nat) (chans : list nat) (state : snapshot)
    (l : list event) (s : mixer) :
  get_state_loop full mx chans state (add_log l s) =
  (fst (get_state_loop full mx chans state s), add_log l s).
Proof.
  revert state. induction chans as [|c rest IH]; intros state; [reflexivity|].
  simpl. unfold bind. change (m_zctrls (add_log l s)) with (m_zctrls s).
  destruct (m_zctrls s !! c); [apply IH|reflexivity].
Qed.

Lemma get_state_loop_state (full : bool) (mx : nat) (chans : list nat) (state : snapshot)
    (s : mixer) :
  snd (get_state_loop full mx chans state s) = s.
Proof.
  revert state. induction chans as [|c rest IH]; intros state; [reflexivity|].
  simpl. unfold bind. destruct (m_zctrls s !! c); [apply IH|reflexivity].
Qed.

(** X12: [toggle_mute(channel)] only forwards [toggleMute] to the
    library: the cached mute value is not updated, so [get_state] (with
    either [full]) reports the same snapshot as before the toggle. *)
Theorem toggle_mute_keeps_snapshot (c : nat) (full : bool) (s : mixer) :
  fst (get_state lib_max full (snd (toggle_mute c s))) = fst (get_state lib_max full s).
Proof.
  assert (Ht : exists l, snd (toggle_mute c s) = add_log l s).
  { unfold toggle_mute, clamp, lib_call, bind, gets, when, modify, ret; simpl.
    destruct (m_lib s); [eexists; reflexivity|exists []; rewrite add_log_nil; reflexivity]. }
  destruct Ht as [l ->].
  unfold get_state, get_max_channels, bind, gets, ret; simpl.
  rewrite get_state_loop_add_log. reflexivity.
Qed.

(** X13: a control change on a MIDI channel past the end of [learned_cc]
    while a controller waits to be learned raises IndexError before
    anything changes (the learn stays pending); with no learn pending and
    [midi_single_active_channel] off, the lookup error is swallowed and
    nothing changes either. *)
Theorem midi_control_change_out_of_range (single : bool) (chan ccnum val : nat) (s : mixer) :
  length (m_learned_cc s) <= chan -> (m_learn_zctrl s <> None \/ single = false) ->
  midi_control_change single chan ccnum val s =
  (match m_learn_zctrl s with Some _ => inl IndexError | None => inr tt end, s).
Proof.
  intros Hlen Hcase.
  assert (Hnone : m_learned_cc s !! chan = None) by (apply lookup_ge_None_2; exact Hlen).
  unfold midi_control_change. erewrite bind_inr by reflexivity.
  destruct (m_learn_zctrl s) as [z|].
  - unfold learned_cc_get, lift_opt. rewrite !bind_assoc.
    erewrite bind_inr by reflexivity. rewrite Hnone. reflexivity.
  - destruct Hcase as [Hc | ->]; [congruence|].
    unfold try_pass, try_except, dispatch_cc, learned_cc_get, lift_opt, bind, gets, ret.
    rewrite Hnone. reflexivity.
Qed.

End MuteAndChannels.

(* ------------------------------------------------------------------ *)
(** ** Control screen: [fill_list] *)

Section FillList.
Local Open Scope list_scope.

Lemma fill_screens_run (l : glayer) (cur : nat) (scrs : list string) (i j : nat)
    (changed : bool) (index : nat) (acc : list ld_entry) :
  exists ch ix,
  fill_screens l cur scrs i j changed index acc =
  (acc ++ imap (λ k c, LScreen c (i + k) (gl_id l) (j + k)) scrs, i + length scrs, ch, ix) /\
  (changed = false \/ gl_id l <> cur -> ch = changed /\ ix = index).
Proof.
  revert i j changed index acc. induction scrs as [|c rest IH]; intros i j changed index acc.
  - exists changed, index. simpl. rewrite app_nil_r, Nat.add_0_r. split; [reflexivity|tauto].
  - simpl.
    destruct (changed && negb (String.eqb c EmptyString) && Nat.eqb (gl_id l) cur) eqn:Hc.
    + destruct (IH (S i) (S j) false (S i) (acc ++ [LScreen c i (gl_id l) j]))
        as (ch & ix & Hrun & _).
      exists ch, ix. rewrite Hrun. split.
      * rewrite <- app_assoc. simpl. rewrite !Nat.add_0_r.
        do 3 f_equal.
        -- f_equal. f_equal. apply imap_ext. intros k x _. unfold compose. f_equal; lia.
        -- lia.
      * intros [->|Hne]; [discriminate|].
        apply andb_true_iff in Hc as [_ Hc]. apply Nat.eqb_eq in Hc. contradiction.
    + destruct (IH (S i) (S j) changed index (acc ++ [LScreen c i (gl_id l) j]))
        as (ch & ix & Hrun & Hkeep).
      exists ch, ix. rewrite Hrun. split; [|exact Hkeep].
      rewrite <- app_assoc. simpl. rewrite !Nat.add_0_r.
      do 3 f_equal.
      -- f_equal. f_equal. apply imap_ext. intros k x _. unfold compose. f_equal; lia.
      -- lia.
Qed.

Lemma fill_screens_first (l : glayer) (scrs : list string) (s0 : string) (i : nat)
    (index : nat) (acc : list ld_entry) :
  s0 <> EmptyString ->
  exists ld i2, fill_screens l (gl_id l) (s0 :: scrs) i 0 true index acc =
    (acc ++ LScreen s0 i (gl_id l) 0 :: ld, i2, false, S i).
Proof.
  intros Hs0. simpl.
  assert (Hb : negb (String.eqb s0 EmptyString) = true)
    by (destruct (String.eqb_spec s0 EmptyString); [contradiction|reflexivity]).
  rewrite Hb, Nat.eqb_refl. simpl.
  destruct (fill_screens_run l (gl_id l) scrs (S i) 1 false (S i)
              (acc ++ [LScreen s0 i (gl_id l) 0])) as (ch & ix & Hrun & Hkeep).
  destruct (Hkeep (or_introl eq_refl)) as [-> ->].
  rewrite Hrun. rewrite <- app_assoc. eexists _, _. reflexivity.
Qed.

Lemma fill_layers_app (nl cur : nat) (pre post : list glayer) (i : nat) (changed : bool)
    (index : nat) (acc : list ld_entry) :
  fill_layers nl cur (pre ++ post) i changed index acc =
  let '(acc', i', ch', ix') := fill_layers nl cur pre i changed index acc in
  fill_layers nl cur post i' ch' ix' acc'.
Proof.
  revert i changed index acc. induction pre as [|l pre IH]; intros i changed index acc;
    [reflexivity|].
  rewrite <- app_comm_cons. cbn [fill_layers].
  destruct (gl_screens l) as [|c scrs]; [apply IH|].
  destruct (fill_screens _ _ _ _ _ _ _ _) as [[[acc2 i2] ch2] ix2]. apply IH.
Qed.

Lemma fill_layers_extends (nl cur : nat) (ls : list glayer) (i : nat) (changed : bool)
    (index : nat) (acc : list ld_entry) :
  exists ld i' ch ix, fill_layers nl cur ls i changed index acc = (acc ++ ld, i', ch, ix) /\
    (changed = false -> ch = false /\ ix = index).
Proof.
  revert i changed index acc. induction ls as [|l ls IH]; intros i changed index acc.
  - exists [], i, changed, index. rewrite app_nil_r. split; [reflexivity|tauto].
  - cbn [fill_layers]. destruct (gl_screens l) as [|c scrs]; [apply IH|].
    destruct (fill_screens_run l cur (c :: scrs) i 0 changed index
                (if Nat.ltb 1 nl then acc ++ [LHeader ("> " +:+ last_seg (gl_name l))] else acc))
      as (ch & ix & Hrun & Hkeep).
    rewrite Hrun.
    destruct (IH (i + length (c :: scrs)) ch ix
      ((if Nat.ltb 1 nl then acc ++ [LHeader ("> " +:+ last_seg (gl_name l))] else acc) ++
       imap (λ k c0, LScreen c0 (i + k) (gl_id l) (0 + k)) (c :: scrs)))
      as (ld & i' & ch' & ix' & Hrun' & Hkeep').
    rewrite Hrun'. destruct (Nat.ltb 1 nl).
    + eexists _, _, _, _. split; [rewrite <- !app_assoc; reflexivity|].
      intros Hf. destruct (Hkeep (or_introl Hf)) as [-> ->]. apply Hkeep'. exact Hf.
    + eexists _, _, _, _. split; [rewrite <- !app_assoc; reflexivity|].
      intros Hf. destruct (Hkeep (or_introl Hf)) as [-> ->]. apply Hkeep'. exact Hf.
Qed.

Lemma fill_layers_before (nl cur : nat) (pre : list glayer) (i : nat) (index : nat)
    (acc : list ld_entry) :
  Forall (λ l, gl_id l <> cur) pre ->
  exists ld, fill_layers nl cur pre i true index acc =
    (acc ++ ld, i + n_screens pre, true, index) /\
    length ld = n_screens pre + (if Nat.ltb 1 nl then n_with_screens pre else 0).
Proof.
  revert i acc. induction pre as [|l pre IH]; intros i acc Hpre.
  - exists []. rewrite app_nil_r, Nat.add_0_r. split; [reflexivity|].
    destruct (Nat.ltb 1 nl); reflexivity.
  - apply Forall_cons in Hpre as [Hl Hpre]. cbn [fill_layers].
    unfold n_screens, n_with_screens in *. rewrite filter_cons. cbn [sum_list_with].
    destruct (gl_screens l) as [|c scrs] eqn:Hs.
    + destruct (IH i acc Hpre) as (ld & Hrun & Hlen). exists ld.
      rewrite Hrun. rewrite decide_False by (intros H; apply H; reflexivity).
      split; [reflexivity|]. rewrite Hlen. reflexivity.
    + destruct (fill_screens_run l cur (c :: scrs) i 0 true index
                  (if Nat.ltb 1 nl then acc ++ [LHeader ("> " +:+ last_seg (gl_name l))] else acc))
        as (ch & ix & Hrun & Hkeep).
      destruct (Hkeep (or_intror Hl)) as [-> ->].
      rewrite Hrun. simpl length.
      match goal with |- context [fill_layers nl cur pre ?i2 true index ?a2] =>
        destruct (IH i2 a2 Hpre) as (ld & Hrun' & Hlen) end.
      rewrite Hrun'.
      try rewrite decide_True by discriminate. simpl length.
      destruct (Nat.ltb 1 nl).
      * eexists. split.
        -- rewrite <- !app_assoc. f_equal. f_equal. f_equal. lia.
        -- rewrite !length_app, length_imap, Hlen. simpl. lia.
      * eexists. split.
        -- rewrite <- !app_assoc. f_equal. f_equal. f_equal. lia.
        -- rewrite !length_app, length_imap, Hlen. simpl. lia.
Qed.

(** X14: [fill_list] with [layers_changed] set, when the current layer
    [lc] first appears after the layers [pre] and its first screen title
    [s0] is not empty: the row of that first screen sits at position
    [n + h], where [n] is the number of screens of [pre] and [h] the number
    of header rows before it (none when [self.layers] has one layer,
    otherwise one per layer of [pre] with screens plus the one of [lc]);
    [fill_list] clears [layers_changed] and sets [index] to [n + 1], which
    is that row only when [h = 1]. *)
Theorem fill_list_index (pre post : list glayer) (lc : glayer) (s0 : string)
    (scrs : list string) (index : nat) :
  Forall (λ l, gl_id l <> gl_id lc) pre -> gl_screens lc = s0 :: scrs -> s0 <> EmptyString ->
  let ls := pre ++ lc :: post in
  let '(ld, changed', index') := fill_list ls (gl_id lc) true index in
  let h := if Nat.ltb 1 (length ls) then S (n_with_screens pre) else 0 in
  ld !! (n_screens pre + h) = Some (LScreen s0 (n_screens pre) (gl_id lc) 0) /\
  changed' = false /\ index' = S (n_screens pre).
Proof.
  intros Hpre Hlc Hs0 ls. unfold fill_list, ls. rewrite fill_layers_app.
  destruct (fill_layers_before (length (pre ++ lc :: post)) (gl_id lc) pre 0 index [] Hpre)
    as (ld & Hrun & Hlen).
  rewrite Hrun. cbn [fill_layers]. rewrite Hlc. cbv iota beta.
  rewrite app_nil_l, Nat.add_0_l.
  set (acc1 := if Nat.ltb 1 (length (pre ++ lc :: post))
               then ld ++ [LHeader ("> " +:+ last_seg (gl_name lc))] else ld).
  destruct (fill_screens_first lc scrs s0 (n_screens pre) index acc1 Hs0) as (ld2 & i2 & Hfs).
  rewrite Hfs.
  destruct (fill_layers_extends (length (pre ++ lc :: post)) (gl_id lc) post i2 false
              (S (n_screens pre)) (acc1 ++ LScreen s0 (n_screens pre) (gl_id lc) 0 :: ld2))
    as (ld3 & i3 & ch3 & ix3 & Hrun3 & Hkeep3).
  rewrite Hrun3. destruct (Hkeep3 eq_refl) as [-> ->].
  split; [|split; reflexivity].
  rewrite <- app_assoc. rewrite lookup_app_r.
  - unfold acc1. destruct (Nat.ltb 1 (length (pre ++ lc :: post))).
    + rewrite length_app, Hlen. simpl.
      replace (n_screens pre + S (n_with_screens pre) - (n_screens pre + n_with_screens pre + 1))
        with 0 by lia. reflexivity.
    + rewrite Hlen. simpl. replace (n_screens pre + 0 - (n_screens pre + 0)) with 0 by lia.
      reflexivity.
  - unfold acc1. destruct (Nat.ltb 1 (length (pre ++ lc :: post)));
      [rewrite length_app, Hlen; simpl; lia|rewrite Hlen; lia].
Qed.

End FillList.

(* ------------------------------------------------------------------ *)
(** ** Concrete runs *)

(** C1, witness: in single-active mode, CC 7 arriving on channel 0 reaches
    the controller learned on channel 1. *)
Lemma midi_control_change_dispatch_witness :
  m_learn_zctrl demo_learned = None /\
  (midi_control_change true 0 7 9 demo_learned =
     (inr tt, add_log (map (λ z, ECtrlMCC z 9) (cc_targets demo_learned true 0 7)) demo_learned) /\
   (cc_targets demo_learned true 0 7 = [] ->
    midi_control_change true 0 7 9 demo_learned = (inr tt, demo_learned))).
Proof.
  assert (H : m_learn_zctrl demo_learned = None) by (vm_compute; reflexivity).
  split; [exact H|].
  exact (midi_control_change_dispatch true 0 7 9 demo_learned H).
Defined.

(** C1, counterexample: the slot (0, 7) is unbound, yet in single-active
    mode the event changes the state (the controller bound on channel 1
    receives the value). *)
Lemma unbound_slot_still_dispatches :
  bound_at demo_learned 0 7 = None /\
  bound_at demo_learned 1 7 = Some (ZForeign 3) /\
  snd (midi_control_change true 0 7 9 demo_learned) <> demo_learned.
Proof.
  split; [vm_compute; reflexivity|].
  split; [vm_compute; reflexivity|].
  intros H. apply (f_equal (λ s, length (m_log s))) in H.
  vm_compute in H. discriminate H.
Qed.

(** C2, witness: learning CC 7 on channel 1 for [ZForeign 3]. *)
Lemma midi_learn_binds_witness :
  m_learn_zctrl demo_learning = Some (ZForeign 3) /\
  length (m_learned_cc demo_learning) = 16 /\
  bound_at (snd (midi_control_change false 1 7 0 demo_learning)) 1 7 = Some (ZForeign 3) /\
  m_learn_zctrl (snd (midi_control_change false 1 7 0 demo_learning)) = None.
Proof.
  assert (H1 : m_learn_zctrl demo_learning = Some (ZForeign 3)) by (vm_compute; reflexivity).
  assert (H2 : length (m_learned_cc demo_learning) = 16) by (vm_compute; reflexivity).
  pose proof (midi_learn_binds false 1 7 0 (ZForeign 3) demo_learning H1 H2 ltac:(lia)) as W.
  destruct (midi_control_change false 1 7 0 demo_learning) as [r s'].
  destruct W as (_ & Hb & _ & Hz & _).
  split; [exact H1|]. split; [exact H2|]. split; [exact Hb|exact Hz].
Defined.

(** C3, witness: on a freshly built mixer (no binding at all) [midi_unlearn]
    raises TypeError. *)
Lemma midi_unlearn_type_error_witness :
  m_learned_cc demo_mixer <> [] /\
  midi_unlearn (ZForeign 3) demo_mixer = (inl TypeError, demo_mixer).
Proof.
  assert (H : m_learned_cc demo_mixer <> []) by (vm_compute; discriminate).
  split; [exact H|].
  exact (midi_unlearn_type_error (ZForeign 3) demo_mixer H).
Defined.

(** A mixer built with the library loaded, two channels. *)
Lemma demo_mixer_run : zynmixer_init 2 demo_lib_get true false = (inr tt, demo_mixer).
Proof. vm_compute. reflexivity. Qed.

Lemma demo_mixer_reachable : reachable 2 demo_lib_get demo_mixer.
Proof. exact (reachable_init 2 demo_lib_get false demo_mixer demo_mixer_run). Qed.

(** [set_level(1, 7)], then [destroy()], on [demo_mixer]. *)
Lemma demo_destroyed_reachable : reachable 2 demo_lib_get demo_destroyed.
Proof.
  exact (reachable_call _ _ (CallOp ODestroy) _
           (reachable_call _ _ (CallOp (OSetLevel 1 (PyInt 7) true)) _ demo_mixer_reachable)).
Qed.

(** C5, witness: the snapshot taken after [set_level(1, 7)] and
    [destroy()] restores the level 7 of strip 1 on the fresh [demo_mixer]. *)
Lemma snapshot_round_trip_witness :
  reachable 2 demo_lib_get demo_destroyed /\
  (exists snap, get_state 2 true demo_destroyed = (inr snap, demo_destroyed) /\
    forall s1, reachable 2 demo_lib_get s1 ->
      fst (set_state 2 snap true s1) = inr tt /\
      forall c y, cache_value (snd (set_state 2 snap true s1)) c y = cache_value demo_destroyed c y) /\
  cache_value demo_destroyed 1 Level = Some (PyInt 7).
Proof.
  split; [exact demo_destroyed_reachable|].
  split; [exact (snapshot_round_trip 2 demo_lib_get demo_destroyed demo_destroyed_reachable)|].
  vm_compute. reflexivity.
Defined.



(** C7, witness: after [set_level(1, 7)] and [destroy()], [demo_mixer]
    still has its library and [get_mute(0)] still asks it. *)
Lemma constructed_mixer_keeps_lib_witness :
  reachable 2 demo_lib_get demo_destroyed /\ m_lib demo_destroyed = true /\
  get_mute demo_lib_get 0 demo_destroyed =
    (inr (demo_lib_get (m_log demo_destroyed) "getMute" [CInt 0]), demo_destroyed).
Proof.
  destruct (proj2 (constructed_mixer_keeps_lib 2 demo_lib_get) demo_destroyed
              demo_destroyed_reachable) as [Hl W].
  destruct (W 0 0) as (_ & _ & Hm & _).
  split; [exact demo_destroyed_reachable|]. split; [exact Hl|exact Hm].
Defined.

(** X4, witness: [destroy()] on [demo_mixer]. *)
Lemma destroy_raises_after_end_witness :
  reachable 2 demo_lib_get demo_mixer /\
  destroy demo_mixer = (inl AttributeError, add_log [ENative "end" []] demo_mixer).
Proof.
  split; [exact demo_mixer_reachable|].
  exact (proj1 (destroy_raises_after_end 2 demo_lib_get demo_mixer demo_mixer_reachable)).
Defined.

(** C9, witness: the last of three entries. *)
Lemma page_navigation_witness :
  (0 <= 2 < Z.of_nat (length [10; 20; 30]))%Z /\
  previous_page 2 [10; 20; 30] true = Z.max (2 - 1) 0 /\
  next_page 2 [10; 20; 30] true =
    (if (2 =? Z.of_nat (length [10; 20; 30]) - 1)%Z then (if true then 0 else 2) else 2 + 1)%Z /\
  (0 <= previous_page 2 [10; 20; 30] true < Z.of_nat (length [10; 20; 30]))%Z /\
  (0 <= next_page 2 [10; 20; 30] true < Z.of_nat (length [10; 20; 30]))%Z.
Proof.
  assert (H : (0 <= 2 < Z.of_nat (length [10; 20; 30]))%Z) by (simpl; lia).
  split; [exact H|].
  exact (page_navigation 2 [10; 20; 30] true H).
Defined.

(** X1, witness: seven readings of the third GUI controller. *)
Lemma zynpot_reads_keep_xy_witness :
  xy_ok demo_xy /\
  exists st', zynpot_reads (repeat 2 7) demo_xy = Some st' /\ xy_ok st'.
Proof.
  assert (Hok : xy_ok demo_xy) by (split; [discriminate|reflexivity]).
  split; [exact Hok|].
  exists (default demo_xy (zynpot_reads (repeat 2 7) demo_xy)).
  assert (Hr : zynpot_reads (repeat 2 7) demo_xy
               = Some (default demo_xy (zynpot_reads (repeat 2 7) demo_xy)))
    by (vm_compute; reflexivity).
  split; [exact Hr|].
  exact (zynpot_reads_keep_xy (repeat 2 7) demo_xy _ Hok Hr).
Defined.

(** X2, witness: five readings leave X, Y and the axis alone. *)
Lemma zynpot_reads_need_six_witness :
  xy_counter demo_xy + length (repeat 2 5) <= 5 /\
  exists st', zynpot_reads (repeat 2 5) demo_xy = Some st' /\
    xy_x st' = xy_x demo_xy /\ xy_y st' = xy_y demo_xy /\ xy_axis st' = xy_axis demo_xy.
Proof.
  assert (Hc : xy_counter demo_xy + length (repeat 2 5) <= 5) by (vm_compute; lia).
  split; [exact Hc|].
  exists (default demo_xy (zynpot_reads (repeat 2 5) demo_xy)).
  assert (Hr : zynpot_reads (repeat 2 5) demo_xy
               = Some (default demo_xy (zynpot_reads (repeat 2 5) demo_xy)))
    by (vm_compute; reflexivity).
  split; [exact Hr|].
  exact (zynpot_reads_need_six (repeat 2 5) demo_xy _ Hc Hr).
Defined.

(** X3, witness: the third GUI controller becomes the X controller at
    the seventh reading. *)
Lemma zynpot_reads_assign_witness :
  xy_ctrls demo_xy !! 2 = Some (Some 3) /\ Some 3 <> xy_x demo_xy /\
  Some 3 <> xy_y demo_xy /\ Some 3 <> xy_last demo_xy /\
  (xy_axis demo_xy = "X" \/ xy_axis demo_xy = "Y") /\
  (exists st6, zynpot_reads (repeat 2 6) demo_xy = Some st6 /\
     xy_x st6 = xy_x demo_xy /\ xy_y st6 = xy_y demo_xy /\ xy_axis st6 = xy_axis demo_xy) /\
  (exists st7, zynpot_reads (repeat 2 7) demo_xy = Some st7 /\ xy_counter st7 = 0 /\
     if String.eqb (xy_axis demo_xy) "X"
     then xy_x st7 = Some 3 /\ xy_y st7 = xy_y demo_xy /\ xy_axis st7 = "Y"
     else xy_y st7 = Some 3 /\ xy_x st7 = xy_x demo_xy /\ xy_axis st7 = "X").
Proof.
  assert (H1 : xy_ctrls demo_xy !! 2 = Some (Some 3)) by reflexivity.
  assert (H2 : Some 3 <> xy_x demo_xy) by discriminate.
  assert (H3 : Some 3 <> xy_y demo_xy) by discriminate.
  assert (H4 : Some 3 <> xy_last demo_xy) by discriminate.
  assert (H5 : xy_axis demo_xy = "X" \/ xy_axis demo_xy = "Y") by (left; reflexivity).
  split; [exact H1|]. split; [exact H2|]. split; [exact H3|]. split; [exact H4|].
  split; [exact H5|].
  exact (zynpot_reads_assign 2 (Some 3) demo_xy H1 H2 H3 H4 H5).
Defined.

(** X5, witness: a control change with no learn pending. *)
Lemma learned_cc_only_by_learning_witness :
  m_learn_zctrl demo_learned = None /\
  m_learned_cc (snd (run_call 2 demo_lib_get (CallOp (OMidiControlChange true 0 7 9))
                       demo_learned)) = m_learned_cc demo_learned.
Proof.
  assert (H : m_learn_zctrl demo_learned = None) by (vm_compute; reflexivity).
  split; [exact H|].
  exact (learned_cc_only_by_learning 2 demo_lib_get
           (CallOp (OMidiControlChange true 0 7 9)) demo_learned H).
Defined.

(** X6, witness: [ZForeign 3] learned on channel 1, CC 7. *)
Lemma get_learned_cc_spec_witness :
  length (m_learned_cc demo_learned) = 16 /\
  Forall (λ d, NoDup (map fst d)) (m_learned_cc demo_learned) /\
  exists r, get_learned_cc (ZForeign 3) demo_learned = (inr r, demo_learned) /\
  match r with
  | Some l => exists ch cc, l = [ch; cc] /\ bound_at demo_learned ch cc = Some (ZForeign 3) /\
      forall ch' cc', ch' < ch -> bound_at demo_learned ch' cc' <> Some (ZForeign 3)
  | None => forall ch cc, bound_at demo_learned ch cc <> Some (ZForeign 3)
  end.
Proof.
  assert (H1 : length (m_learned_cc demo_learned) = 16) by (vm_compute; reflexivity).
  assert (H2 : Forall (λ d, NoDup (map fst d)) (m_learned_cc demo_learned))
    by (apply (bool_decide_unpack _); vm_compute; reflexivity).
  split; [exact H1|]. split; [exact H2|].
  exact (get_learned_cc_spec (ZForeign 3) demo_learned H1 H2).
Defined.

(** X7, witness: learning CC 7 on channel 1 for [ZForeign 3]. *)
Lemma learn_then_get_learned_cc_witness :
  length (m_learned_cc demo_mixer) = 16 /\ 1 < 16 /\
  fst (get_learned_cc (ZForeign 3) demo_mixer) = inr None /\
  fst ((enable_midi_learn (ZForeign 3) ;;; midi_control_change false 1 7 0 ;;;
        get_learned_cc (ZForeign 3)) demo_mixer) = inr (Some [1; 7]).
Proof.
  assert (H1 : length (m_learned_cc demo_mixer) = 16) by (vm_compute; reflexivity).
  assert (H2 : 1 < 16) by lia.
  assert (H3 : fst (get_learned_cc (ZForeign 3) demo_mixer) = inr None)
    by (vm_compute; reflexivity).
  split; [exact H1|]. split; [exact H2|]. split; [exact H3|].
  exact (learn_then_get_learned_cc false (ZForeign 3) 1 7 0 demo_mixer H1 H2 H3).
Defined.

(** X8, witness: [reset(5)] on [demo_mixer] resets the main bus. *)
Lemma reset_restores_defaults_witness :
  length (m_zctrls demo_mixer) = m_max demo_mixer + 1 /\
  let c' := if Nat.leb (m_max demo_mixer) 5 then m_max demo_mixer else 5 in
  exists st, m_zctrls demo_mixer !! c' = Some st /\
    reset 5 demo_mixer = (inr tt, set_zctrls (<[c' := strip_reset st]> (m_zctrls demo_mixer))
                                              demo_mixer).
Proof.
  assert (H : length (m_zctrls demo_mixer) = m_max demo_mixer + 1) by (vm_compute; reflexivity).
  split; [exact H|].
  exact (reset_restores_defaults 5 demo_mixer H).
Defined.

(** X9, witness: [reset_state()] then [get_state(False)] on [demo_mixer]. *)
Lemma reset_state_then_get_state_witness :
  mixer_inv 2 demo_mixer /\
  exists s', reset_state 2 demo_mixer = (inr tt, s') /\ get_state 2 false s' = (inr ∅, s').
Proof.
  assert (H : mixer_inv 2 demo_mixer) by (vm_compute; split; [reflexivity|intros; reflexivity]).
  split; [exact H|].
  exact (reset_state_then_get_state 2 demo_mixer H).
Defined.

(** X11, witness: [toggle_solo(1, update=False)] on [demo_mixer]. *)
Lemma toggle_solo_flips_witness :
  length (m_zctrls demo_mixer) = m_max demo_mixer + 1 /\
  let c' := if Nat.leb (m_max demo_mixer) 1 then m_max demo_mixer else 1 in
  let solo := py_eqb (demo_lib_get (m_log demo_mixer) "getSolo" [CInt c']) (PyInt 1) in
  let r := toggle_solo demo_lib_get 1 false demo_mixer in
  fst r = inr tt /\
  (m_lib demo_mixer = false -> snd r = demo_mixer) /\
  (m_lib demo_mixer = true ->
   exists st l, m_zctrls demo_mixer !! c' = Some st /\
     m_zctrls (snd r) =
       <[c' := strip_set st Solo (mkZctrl (PyBool (negb solo)) (zc_default (s_solo st)))]>
         (m_zctrls demo_mixer) /\
     m_log (snd r) = (m_log demo_mixer ++
                      ENative "setSolo" [CInt c'; CPy (PyBool (negb solo))] :: l)%list /\
     m_learned_cc (snd r) = m_learned_cc demo_mixer).
Proof.
  assert (H : length (m_zctrls demo_mixer) = m_max demo_mixer + 1) by (vm_compute; reflexivity).
  split; [exact H|].
  exact (toggle_solo_flips demo_lib_get 1 false demo_mixer H).
Defined.

(** X13, witness: a control change on channel 20 while learning. *)
Lemma midi_control_change_out_of_range_witness :
  length (m_learned_cc demo_learning) <= 20 /\
  (m_learn_zctrl demo_learning <> None \/ true = false) /\
  midi_control_change true 20 7 0 demo_learning =
  (match m_learn_zctrl demo_learning with Some _ => inl IndexError | None => inr tt end,
   demo_learning).
Proof.
  assert (H1 : length (m_learned_cc demo_learning) <= 20) by (vm_compute; lia).
  assert (H2 : m_learn_zctrl demo_learning <> None \/ true = false)
    by (left; vm_compute; discriminate).
  split; [exact H1|]. split; [exact H2|].
  exact (midi_control_change_out_of_range true 20 7 0 demo_learning H1 H2).
Defined.

(** X14, witness: the current layer after a MIDI effect with one screen. *)
Lemma fill_list_index_witness :
  Forall (λ l, gl_id l <> gl_id demo_cur) demo_pre /\
  gl_screens demo_cur = "main" :: ["filter"] /\ "main" <> EmptyString /\
  let ls := (demo_pre ++ demo_cur :: demo_post)%list in
  let '(ld, changed', index') := fill_list ls (gl_id demo_cur) true 0 in
  let h := if Nat.ltb 1 (length ls) then S (n_with_screens demo_pre) else 0 in
  ld !! (n_screens demo_pre + h) = Some (LScreen "main" (n_screens demo_pre) (gl_id demo_cur) 0) /\
  changed' = false /\ index' = S (n_screens demo_pre).
Proof.
  assert (H1 : Forall (λ l, gl_id l <> gl_id demo_cur) demo_pre)
    by (repeat constructor; discriminate).
  assert (H2 : gl_screens demo_cur = "main" :: ["filter"]) by reflexivity.
  assert (H3 : "main" <> EmptyString) by discriminate.
  split; [exact H1|]. split; [exact H2|]. split; [exact H3|].
  exact (fill_list_index demo_pre demo_post demo_cur "main" ["filter"] 0 H1 H2 H3).
Defined.
